(** * license-blacklist-scanner: the license aggregation pipeline of [src/index.ts]

    A shallow embedding of [run]: SBOM ingestion with the npm registry
    fallback, the two insertion-ordered aggregation maps, and the Markdown
    and Slack renderings, followed by the properties of the pipeline. *)

From Stdlib Require Import String Ascii List Bool Arith Lia Permutation.
Import ListNotations.
Open Scope string_scope.

(** ** JavaScript strings *)

Module Js.

(** The line feed of the template literals. *)
Definition nl : string := String "010"%char EmptyString.

(** [!!s] for an optional string: [undefined] and the empty string are falsy. *)
Definition truthy (s : option string) : bool :=
  match s with
  | None => false
  | Some s => negb (s =? EmptyString)
  end.

(** [s.replace(/ /g, "-")]. *)
Fixpoint replaceSpaces (s : string) : string :=
  match s with
  | EmptyString => EmptyString
  | String c rest =>
      String (if Ascii.eqb c " "%char then "-"%char else c) (replaceSpaces rest)
  end.

(** [s.split(",")]; [acc] is the segment read so far. *)
Fixpoint splitFrom (acc s : string) : list string :=
  match s with
  | EmptyString => [acc]
  | String c rest =>
      if Ascii.eqb c ","%char then acc :: splitFrom EmptyString rest
      else splitFrom (acc ++ String c EmptyString) rest
  end.

Definition splitComma (s : string) : list string := splitFrom EmptyString s.

(** [arr.includes(x)] on an array of strings. *)
Definition includes (arr : list string) (x : string) : bool :=
  existsb (String.eqb x) arr.

(** [arr.join(sep)] on an array of strings. *)
Definition join (sep : string) (arr : list string) : string :=
  String.concat sep arr.

(** [`${arr}`]: an array in a template literal is joined with commas. *)
Definition arrayToString (arr : list string) : string := join "," arr.

(** [arr.map((x, idx) => f x idx)]. *)
Fixpoint mapiFrom {A B : Type} (i : nat) (f : A -> nat -> B) (l : list A)
  : list B :=
  match l with
  | [] => []
  | x :: rest => f x i :: mapiFrom (S i) f rest
  end.

Definition mapi {A B : Type} (f : A -> nat -> B) (l : list A) : list B :=
  mapiFrom 0 f l.

(** [s.startsWith(p)] and [s.includes(p)]. *)
Fixpoint startsWith (p s : string) : bool :=
  match p, s with
  | EmptyString, _ => true
  | String a p', String b s' => Ascii.eqb a b && startsWith p' s'
  | String _ _, EmptyString => false
  end.

Fixpoint strIncludes (p s : string) : bool :=
  startsWith p s ||
  match s with
  | EmptyString => false
  | String _ s' => strIncludes p s'
  end.

(** The characters of a string. *)
Fixpoint chars (s : string) : list ascii :=
  match s with
  | EmptyString => []
  | String c rest => c :: chars rest
  end.

Definition hasSpace (s : string) : Prop := In " "%char (chars s).

End Js.

(** ** The insertion-ordered [Map] with string keys

    A [Map] iterates in insertion order; [set] on a key already present
    keeps the key's position and replaces its value. *)

Module JsMap.

Definition t (V : Type) : Type := list (string * V).

Definition empty {V : Type} : t V := [].

Fixpoint get {V : Type} (k : string) (m : t V) : option V :=
  match m with
  | [] => None
  | (k', v) :: rest => if k =? k' then Some v else get k rest
  end.

Definition has {V : Type} (k : string) (m : t V) : bool :=
  match get k m with
  | Some _ => true
  | None => false
  end.

Fixpoint set {V : Type} (k : string) (v : V) (m : t V) : t V :=
  match m with
  | [] => [(k, v)]
  | (k', v') :: rest =>
      if k =? k' then (k, v) :: rest else (k', v') :: set k v rest
  end.

Definition keys {V : Type} (m : t V) : list string := map fst m.

Definition size {V : Type} (m : t V) : nat := length m.

End JsMap.

(** ** Data model *)

Record PackageData : Type := mkPackageData {
  name : string;
  version : string;
  license : string
}.

Record MappedPackageData : Type := mkMapped {
  repo : string;
  mversion : string
}.

Definition PackageDataMap : Type :=
  JsMap.t (JsMap.t (list MappedPackageData)).

(** One package entry of a repository's SBOM; each field may be absent. *)
Record SbomPackage : Type := mkSbomPackage {
  sbom_name : option string;
  versionInfo : option string;
  licenseConcluded : option string
}.

(** One element of [pkgsByRepo]. *)
Record RepoPackages : Type := mkRepoPackages {
  rp_repo : string;
  packages : list PackageData
}.

(** ** The registry fallback and the effects of ingestion

    [packageJson] is the npm registry: a request either rejects or fulfils
    with metadata whose [license] may be missing. The registry is any
    function of the request and of a state of the outside world; every
    request made is recorded. *)

Inductive Settled : Type :=
| Rejected
| Fulfilled (pkgLicense : option string).

Record Net (World : Type) : Type := mkNet {
  world : World;
  requests : list (string * option string)
}.
Arguments mkNet {World} _ _.
Arguments world {World} _.
Arguments requests {World} _.

Definition Registry (World : Type) : Type :=
  string -> option string -> World -> Settled * World.

Definition IO (World A : Type) : Type := Net World -> A * Net World.

Definition ret {World A : Type} (a : A) : IO World A := fun n => (a, n).

Definition bind {World A B : Type} (m : IO World A) (k : A -> IO World B)
  : IO World B :=
  fun n => let (a, n') := m n in k a n'.

Notation "x <- m ;; k" := (bind m (fun x => k))
  (at level 61, m at next level, right associativity).

(** [Promise.all(xs.map(f))] for promises that do not reject: the calls are
    started in array order and the results keep that order. *)
Fixpoint promiseAllMap {World A B : Type} (f : A -> IO World B) (xs : list A)
  : IO World (list B) :=
  match xs with
  | [] => ret []
  | x :: rest =>
      y <- f x ;;
      ys <- promiseAllMap f rest ;;
      ret (y :: ys)
  end.

Section Ingestion.

Context {World : Type}.
Variable packageJson : Registry World.

Definition requestPackageJson (pkgName : string) (ver : option string)
  : IO World Settled :=
  fun n =>
    let (r, w') := packageJson pkgName ver (world n) in
    (r, mkNet w' (requests n ++ [(pkgName, ver)])%list).

(** [resolveLicenseFromNPM]: [.then(license ?? "Unknown")] and
    [.catch(() => "Unknown")]. *)
Definition resolveLicenseFromNPM (pkgName : string) (ver : option string)
  : IO World string :=
  r <- requestPackageJson pkgName ver ;;
  ret (match r with
       | Fulfilled (Some l) => l
       | Fulfilled None => "Unknown"
       | Rejected => "Unknown"
       end).

(** The filter of the SBOM's packages:
    [pkg.name && pkg.versionInfo !== "main"]. *)
Definition keepPackage (pkg : SbomPackage) : bool :=
  Js.truthy (sbom_name pkg) &&
  match versionInfo pkg with
  | Some v => negb (v =? "main")
  | None => true
  end.

(** [name as string]: a cast; the filter has kept only named entries. *)
Definition asString (s : option string) : string :=
  match s with
  | Some s => s
  | None => EmptyString
  end.

(** The parenthesised expression
    [licenseConcluded ?? (await resolveLicenseFromNPM(name, versionInfo))]:
    [??] takes its right side only when the left is [undefined]. *)
Definition concludeLicense (pkg : SbomPackage) : IO World string :=
  match licenseConcluded pkg with
  | Some l => ret l
  | None => resolveLicenseFromNPM (asString (sbom_name pkg)) (versionInfo pkg)
  end.

(** The body of the [.map] over the kept packages. *)
Definition toPackageData (pkg : SbomPackage) : IO World PackageData :=
  raw <- concludeLicense pkg ;;
  ret {| name := asString (sbom_name pkg);
         version := match versionInfo pkg with
                    | Some v => v
                    | None => "Missing version data"
                    end;
         license := Js.replaceSpaces raw |}.

Definition ingestPackages (pkgs : list SbomPackage)
  : IO World (list PackageData) :=
  promiseAllMap toPackageData (filter keepPackage pkgs).

End Ingestion.

(** ** Outcomes of [run]

    [run] either throws one of its errors or returns after printing the
    Markdown report. The errors are told apart by their message:
    "missing credentials!", "no blacklist provided!", "no organisation
    github URL provided!", "authentication failed" and "failed to retrieve
    repos for org ...". *)

Inductive RunError : Type :=
| MissingCredentials
| NoBlacklist
| NoOrgUrl
| AuthenticationFailed
| ReposUnavailable.

Inductive Outcome (A : Type) : Type :=
| Threw (e : RunError)
| Returned (a : A).
Arguments Threw {A} _.
Arguments Returned {A} _.

(** [Promise.all] over settled promises: the first rejection wins. *)
Fixpoint allReturned {A : Type} (os : list (Outcome A)) : Outcome (list A) :=
  match os with
  | [] => Returned []
  | Threw e :: _ => Threw e
  | Returned a :: rest =>
      match allReturned rest with
      | Threw e => Threw e
      | Returned l => Returned (a :: l)
      end
  end.

(** A repository of the organisation with the reply to its SBOM request;
    [None] is a rejected request. *)
Record OrgRepo : Type := mkOrgRepo {
  repo_name : string;
  sbomPackages : option (list SbomPackage)
}.

(** The replies of GitHub: whether ["/app"] returned data, and the
    repositories of the organisation ([None]: the listing rejected). *)
Record GitHub : Type := mkGitHub {
  appData : bool;
  orgRepos : option (list OrgRepo)
}.

Record Env : Type := mkEnv {
  GH_APP_ID : option string;
  GH_APP_PRIVATE_KEY : option string;
  GH_ORG_URL : option string;
  GH_ORG_INSTALLATION_ID : option string;
  LICENSE_BLACKLIST : option string;
  SLACK_WEBHOOK_URL : option string
}.

Section Repositories.

Context {World : Type}.
Variable packageJson : Registry World.

Definition ingestRepo (r : OrgRepo) : IO World (Outcome RepoPackages) :=
  match sbomPackages r with
  | None => ret (Threw ReposUnavailable)
  | Some pkgs =>
      ps <- ingestPackages packageJson pkgs ;;
      ret (Returned {| rp_repo := repo_name r; packages := ps |})
  end.

Definition ingestRepos (repos : list OrgRepo)
  : IO World (Outcome (list RepoPackages)) :=
  os <- promiseAllMap ingestRepo repos ;;
  ret (allReturned os).

End Repositories.

(** ** Aggregation *)

(** [insertPkgIntoMap]; each [?.] is the [None] branch of a lookup, and the
    [push] on the array held by the inner map writes the grown array back
    at its key. *)
Definition insertPkgIntoMap (repo : string) (pkg : PackageData)
  (map : PackageDataMap) : PackageDataMap :=
  let map :=
    if negb (JsMap.has (name pkg) map)
    then JsMap.set (name pkg) JsMap.empty map
    else map in
  let map :=
    match JsMap.get (name pkg) map with
    | Some inner =>
        if negb (JsMap.has (license pkg) inner)
        then JsMap.set (name pkg) (JsMap.set (license pkg) [] inner) map
        else map
    | None => map
    end in
  match JsMap.get (name pkg) map with
  | Some inner =>
      match JsMap.get (license pkg) inner with
      | Some arr =>
          JsMap.set (name pkg)
            (JsMap.set (license pkg)
               (arr ++ [{| repo := repo; mversion := version pkg |}])%list inner)
            map
      | None => map
      end
  | None => map
  end.

(** The body of [packages.forEach], on the pair
    [(blacklistMap, noLicenseMap)]. *)
Definition aggregatePkg (blacklist : list string) (repo : string)
  (maps : PackageDataMap * PackageDataMap) (pkg : PackageData)
  : PackageDataMap * PackageDataMap :=
  let (blacklistMap, noLicenseMap) := maps in
  let noLicenseMap :=
    if license pkg =? "Unknown"
    then insertPkgIntoMap repo pkg noLicenseMap
    else noLicenseMap in
  let blacklistMap :=
    if Js.includes blacklist (license pkg)
    then insertPkgIntoMap repo pkg blacklistMap
    else blacklistMap in
  (blacklistMap, noLicenseMap).

(** [pkgsByRepo.forEach], from two empty maps. *)
Definition aggregate (blacklist : list string) (pkgsByRepo : list RepoPackages)
  : PackageDataMap * PackageDataMap :=
  fold_left
    (fun maps r => fold_left (aggregatePkg blacklist (rp_repo r)) (packages r) maps)
    pkgsByRepo (JsMap.empty, JsMap.empty).

(** ** Reading an aggregation map *)

(** [map.get(name)?.get(license)]. *)
Definition get2 (n l : string) (m : PackageDataMap)
  : option (list MappedPackageData) :=
  match JsMap.get n m with
  | Some inner => JsMap.get l inner
  | None => None
  end.

(** The occurrences stored under [(n, l)]; none when the key is absent. *)
Definition occurrences (n l : string) (m : PackageDataMap)
  : list MappedPackageData :=
  match get2 n l m with
  | Some arr => arr
  | None => []
  end.

(** The license keys under a package name. *)
Definition licensesOf (n : string) (m : PackageDataMap) : list string :=
  match JsMap.get n m with
  | Some inner => JsMap.keys inner
  | None => []
  end.

(** The inner map under a package name; empty when the name is absent. *)
Definition innerMap (n : string) (m : PackageDataMap)
  : JsMap.t (list MappedPackageData) :=
  match JsMap.get n m with
  | Some inner => inner
  | None => JsMap.empty
  end.

(** Every license key of a map, over all package names. *)
Definition licenseKeys (m : PackageDataMap) : list string :=
  flat_map (fun kv => JsMap.keys (snd kv)) m.

(** Keys are unique at both levels. *)
Definition uniqueKeys (m : PackageDataMap) : Prop :=
  NoDup (JsMap.keys m) /\
  Forall (fun kv => NoDup (JsMap.keys (snd kv))) m.

(** The findings of all repositories, each with its repository, in the
    order [forEach] visits them. *)
Definition findings (pkgsByRepo : list RepoPackages)
  : list (string * PackageData) :=
  flat_map (fun r => map (fun pkg => (rp_repo r, pkg)) (packages r)) pkgsByRepo.

(** ** One map's share of the aggregation

    Each map receives, in order, the findings that pass its own test. *)

Definition Finding : Type := (string * PackageData)%type.

Definition insertSelected (sel : PackageData -> bool) (m : PackageDataMap)
  (fs : list Finding) : PackageDataMap :=
  fold_left
    (fun m f => if sel (snd f) then insertPkgIntoMap (fst f) (snd f) m else m)
    fs m.

Definition isUnknown (pkg : PackageData) : bool := license pkg =? "Unknown".

Definition isBlacklisted (blacklist : list string) (pkg : PackageData) : bool :=
  Js.includes blacklist (license pkg).

(** The findings that a map with test [sel] stores under [(n, l)]. *)
Definition storedUnder (sel : PackageData -> bool) (n l : string) (f : Finding)
  : bool :=
  sel (snd f) && (name (snd f) =? n) && (license (snd f) =? l).

Definition toMapped (f : Finding) : MappedPackageData :=
  {| repo := fst f; mversion := version (snd f) |}.

(** ** Rendering *)

Record LicenseEntry : Type := mkLicenseEntry {
  le_license : string;
  le_repos : list MappedPackageData
}.

Record PkgEntry : Type := mkPkgEntry {
  pe_name : string;
  pe_licenses : list LicenseEntry
}.

Definition arraifyMap (m : PackageDataMap) : list PkgEntry :=
  map (fun kv =>
         {| pe_name := fst kv;
            pe_licenses :=
              map (fun kv' => {| le_license := fst kv'; le_repos := snd kv' |})
                  (snd kv) |}) m.

Inductive PkgsCategory : Type := blacklisted | missing.

Definition categoryText (c : PkgsCategory) : string :=
  match c with
  | blacklisted => "blacklisted"
  | missing => "missing"
  end.

Section Rendering.

Variable orgUrl : string.
Variables blacklistPkgs noLicensePkgs : list PkgEntry.

Definition pkgsOf (c : PkgsCategory) : list PkgEntry :=
  match c with
  | blacklisted => blacklistPkgs
  | missing => noLicensePkgs
  end.

Definition mdRepoLink (r : MappedPackageData) : string :=
  "[```" ++ repo r ++ "```](" ++ orgUrl ++ "/" ++ repo r ++ ") @ " ++ mversion r.

Definition mdRow (pkgName : string) (row : string * list string) (idx : nat)
  : string :=
  if (idx <? 1)%nat
  then "| ```" ++ pkgName ++ "``` | " ++ fst row ++ " | "
       ++ Js.arrayToString (snd row) ++ " |"
  else "| | " ++ fst row ++ " | " ++ Js.arrayToString (snd row) ++ " |".

Definition mdPackage (p : PkgEntry) : string :=
  Js.join Js.nl
    (Js.mapi (mdRow (pe_name p))
       (map (fun le => (le_license le, map mdRepoLink (le_repos le)))
            (pe_licenses p))).

Definition generateMDFromPkgs (pkgsCategory : PkgsCategory) : string :=
  "### Dependencies with " ++ categoryText pkgsCategory ++ " licenses" ++ Js.nl ++
  "| Package Name | License | Repositories Affected |" ++ Js.nl ++
  "| --- | --- | --- |" ++ Js.nl ++
  Js.join Js.nl (map mdPackage (pkgsOf pkgsCategory)) ++ Js.nl ++ Js.nl ++
  "Please remove these dependencies.".

Definition slackRepoLink (r : MappedPackageData) : string :=
  "`" ++ repo r ++ "` (<" ++ orgUrl ++ "/" ++ repo r ++ "|link>) @ " ++ mversion r.

Definition slackRow (pkgName : string) (row : string * list string)
  (idx : nat) : string :=
  if (idx <? 1)%nat
  then "*" ++ pkgName ++ " - " ++ fst row ++ "*" ++ Js.nl ++ " - "
       ++ Js.arrayToString (snd row)
  else "- " ++ Js.arrayToString (snd row).

Definition slackPackage (p : PkgEntry) : string :=
  Js.join Js.nl
    (Js.mapi (slackRow (pe_name p))
       (map (fun le => (le_license le, map slackRepoLink (le_repos le)))
            (pe_licenses p))).

Definition generateSlackMdFromPkgs (pkgsCategory : PkgsCategory) : string :=
  "Dependencies with " ++ categoryText pkgsCategory ++ " licenses:" ++ Js.nl ++ Js.nl ++
  Js.join (Js.nl ++ Js.nl) (map slackPackage (pkgsOf pkgsCategory)) ++ Js.nl ++ Js.nl ++
  "Please remove these dependencies.".

Definition mdBanner : string :=
  "```license-scanner``` has detected dependency licensing issues:".

Definition slackBanner : string := "*License Blacklist Scanner Results*".

(** The two component arrays after the conditional [push]es. *)
Definition mdComponents : list string :=
  let components := [mdBanner] in
  let components :=
    if (0 <? length blacklistPkgs)%nat
    then (components ++ [generateMDFromPkgs blacklisted])%list
    else components in
  if (0 <? length noLicensePkgs)%nat
  then (components ++ [generateMDFromPkgs missing])%list
  else components.

Definition slackMdComponents : list string :=
  let components := [slackBanner] in
  let components :=
    if (0 <? length blacklistPkgs)%nat
    then (components ++ [generateSlackMdFromPkgs blacklisted])%list
    else components in
  if (0 <? length noLicensePkgs)%nat
  then (components ++ [generateSlackMdFromPkgs missing])%list
  else components.

Definition mdProblems : string := Js.join (Js.nl ++ Js.nl) mdComponents.

Definition slackMdProblems : string :=
  Js.join (Js.nl ++ Js.nl) slackMdComponents.

End Rendering.

(** ** The whole run *)

(** What a returning run has done: the Markdown printed by [console.log],
    and the [text] posted to the webhook when one is configured. *)
Record Report : Type := mkReport {
  logged : string;
  posted : option string
}.

(** [run] from the aggregation maps on. *)
Definition report (orgUrl : string) (slackWebhookUrl : option string)
  (blacklist : list string) (pkgsByRepo : list RepoPackages) : Report :=
  let (blacklistMap, noLicenseMap) := aggregate blacklist pkgsByRepo in
  let blacklistPkgs := arraifyMap blacklistMap in
  let noLicensePkgs := arraifyMap noLicenseMap in
  {| logged := mdProblems orgUrl blacklistPkgs noLicensePkgs;
     posted :=
       if Js.truthy slackWebhookUrl
       then Some (slackMdProblems orgUrl blacklistPkgs noLicensePkgs)
       else None |}.

Section Run.

Context {World : Type}.
Variable packageJson : Registry World.

(** [run], given the environment and the replies of GitHub. Parsing the
    two URLs is taken to succeed. *)
Definition run (env : Env) (gh : GitHub) : IO World (Outcome Report) :=
  if negb (Js.truthy (GH_APP_ID env))
     || negb (Js.truthy (GH_APP_PRIVATE_KEY env))
     || negb (Js.truthy (GH_ORG_INSTALLATION_ID env))
  then ret (Threw MissingCredentials)
  else
    match LICENSE_BLACKLIST env with
    | None => ret (Threw NoBlacklist)
    | Some licenseBlacklist =>
        if licenseBlacklist =? EmptyString then ret (Threw NoBlacklist)
        else
          let blacklist := Js.splitComma licenseBlacklist in
          match GH_ORG_URL env with
          | None => ret (Threw NoOrgUrl)
          | Some orgUrl =>
              if orgUrl =? EmptyString then ret (Threw NoOrgUrl)
              else if negb (appData gh) then ret (Threw AuthenticationFailed)
              else
                match orgRepos gh with
                | None => ret (Threw ReposUnavailable)
                | Some repos =>
                    let repos :=
                      filter (fun r => negb (repo_name r =? ".github")) repos in
                    r <- ingestRepos packageJson repos ;;
                    match r with
                    | Threw e => ret (Threw e)
                    | Returned pkgsByRepo =>
                        ret (Returned
                               (report orgUrl (SLACK_WEBHOOK_URL env)
                                  blacklist pkgsByRepo))
                    end
                end
          end
    end.

End Run.

(** ** Vocabulary of the properties *)

(** An entry has no name when [pkg.name] is falsy: absent, or empty. *)
Definition noName (e : SbomPackage) : Prop :=
  sbom_name e = None \/ sbom_name e = Some EmptyString.

(** The entries the ingestion drops. *)
Definition droppedEntry (e : SbomPackage) : Prop :=
  noName e \/ versionInfo e = Some "main".

(** The findings of a package list, entry by entry: a dropped entry gives
    none, any other entry gives one, named after it and carrying its
    version or the sentinel. *)
Inductive Ingested : list SbomPackage -> list PackageData -> Prop :=
| Ingested_nil : Ingested [] []
| Ingested_drop e es ps :
    droppedEntry e -> Ingested es ps -> Ingested (e :: es) ps
| Ingested_keep e es p ps :
    ~ droppedEntry e ->
    sbom_name e = Some (name p) ->
    version p = match versionInfo e with
                | Some v => v
                | None => "Missing version data"
                end ->
    Ingested es ps -> Ingested (e :: es) (p :: ps).

(** Two maps with the same keys at both levels and, under every key, the
    same occurrences up to order. *)
Definition sameContent (m m' : PackageDataMap) : Prop :=
  Permutation (JsMap.keys m) (JsMap.keys m') /\
  (forall n, Permutation (licensesOf n m) (licensesOf n m')) /\
  (forall n l, Permutation (occurrences n l m) (occurrences n l m')).

(** The error of an outcome, if it is one. *)
Definition errorOf {A : Type} (o : Outcome A) : option RunError :=
  match o with
  | Threw e => Some e
  | Returned _ => None
  end.

(** The resolver consults the registry for an entry: its result and its
    effect are those of [resolveLicenseFromNPM] on the entry's name and
    version. *)
Definition consultsRegistry {World : Type} (packageJson : Registry World)
  (pkg : SbomPackage) (n : Net World) : Prop :=
  concludeLicense packageJson pkg n =
  resolveLicenseFromNPM packageJson (asString (sbom_name pkg)) (versionInfo pkg) n.

(** A finding whose license has no space. *)
Definition spaceFree (pkg : PackageData) : Prop := ~ Js.hasSpace (license pkg).

(** Whether the SBOM request of a repository was answered. *)
Definition sbomAvailable (r : OrgRepo) : bool :=
  match sbomPackages r with
  | Some _ => true
  | None => false
  end.

(** ** Sample runs *)

Module Samples.

(** A registry that rejects every request, and one that knows every
    package as MIT-licensed. *)
Definition offline : Registry unit := fun _ _ w => (Rejected, w).

Definition allMIT : Registry unit := fun _ _ w => (Fulfilled (Some "MIT"), w).

Definition net0 : Net unit := mkNet tt [].

Definition fooLib : SbomPackage :=
  mkSbomPackage (Some "foo-lib") (Some "2.1.0") None.

Definition leftPad : SbomPackage :=
  mkSbomPackage (Some "left-pad") (Some "1.0.0") (Some "MIT").

Definition emptyLicense : SbomPackage :=
  mkSbomPackage (Some "left-pad") (Some "1.0.0") (Some EmptyString).

Definition rootEntry : SbomPackage :=
  mkSbomPackage (Some "com.github.acme/C") (Some "main") None.

Definition barGPL : SbomPackage :=
  mkSbomPackage (Some "bar") (Some "3.0.0") (Some "GPL-3.0").

Definition barAGPL : SbomPackage :=
  mkSbomPackage (Some "bar") (Some "3.0.0") (Some "AGPL-3.0").

Definition unversioned : SbomPackage :=
  mkSbomPackage (Some "baz") None (Some "Apache License 2.0").

Definition repoB : RepoPackages :=
  mkRepoPackages "B" [mkPackageData "foo-lib" "2.1.0" "Unknown"].

Definition repoC : RepoPackages :=
  mkRepoPackages "C" [mkPackageData "bar" "3.0.0" "GPL-3.0"].

Definition repoD : RepoPackages :=
  mkRepoPackages "D" [mkPackageData "bar" "3.0.0" "GPL-3.0"].

Definition orgUrl : string := "https://github.com/acme".

Definition env : Env :=
  mkEnv (Some "1") (Some "key") (Some orgUrl) (Some "7")
        (Some "GPL-3.0,AGPL-3.0,Apache License 2.0") (Some "https://hooks.example/T0").

(** Two repositories depend on [bar] under two blacklisted licenses. *)
Definition twoLicenses : GitHub :=
  mkGitHub true
    (Some [mkOrgRepo "C" (Some [rootEntry; barGPL]);
           mkOrgRepo ".github" None;
           mkOrgRepo "D" (Some [barAGPL; unversioned])]).

End Samples.

(** ** Vocabulary of the pipeline-wide properties *)

(** The number of commas of a string. *)
Definition commas (s : string) : nat :=
  count_occ Ascii.ascii_dec (Js.chars s) ","%char.

(** The entries for which the ingestion asks the registry: kept, and with
    no declared license; and the request made for such an entry. *)
Definition needsRegistry (e : SbomPackage) : bool :=
  keepPackage e &&
  match licenseConcluded e with
  | Some _ => false
  | None => true
  end.

Definition requestOf (e : SbomPackage) : string * option string :=
  (asString (sbom_name e), versionInfo e).

(** The number of occurrences a map stores, over all its keys. *)
Definition innerTotal (inner : JsMap.t (list MappedPackageData)) : nat :=
  list_sum (map (fun kv => length (snd kv)) inner).

Definition totalOccurrences (m : PackageDataMap) : nat :=
  list_sum (map (fun kv => innerTotal (snd kv)) m).

(** No package name without a license, no license without an occurrence. *)
Definition noEmptyRows (m : PackageDataMap) : Prop :=
  Forall (fun kv =>
            snd kv <> [] /\ Forall (fun kv' => snd kv' <> []) (snd kv)) m.

(** The repositories [run] ingests: all but [.github]. *)
Definition scanned (repos : list OrgRepo) : list OrgRepo :=
  filter (fun r => negb (repo_name r =? ".github")) repos.

(** The three credentials are all set. *)
Definition credentialsSet (env : Env) : bool :=
  Js.truthy (GH_APP_ID env) && Js.truthy (GH_APP_PRIVATE_KEY env)
  && Js.truthy (GH_ORG_INSTALLATION_ID env).

(** The error [run] throws, from the environment and the replies of
    GitHub alone: the first check that fails, in the order of the source. *)
Definition runError (env : Env) (gh : GitHub) : option RunError :=
  if negb (credentialsSet env) then Some MissingCredentials
  else if negb (Js.truthy (LICENSE_BLACKLIST env)) then Some NoBlacklist
  else if negb (Js.truthy (GH_ORG_URL env)) then Some NoOrgUrl
  else if negb (appData gh) then Some AuthenticationFailed
  else
    match orgRepos gh with
    | None => Some ReposUnavailable
    | Some repos =>
        if forallb sbomAvailable (scanned repos) then None
        else Some ReposUnavailable
    end.


(** ** Further sample runs *)

Module MoreSamples.

(** The environment of [Samples.env] without its blacklist. *)
Definition noBlacklist : Env :=
  mkEnv (Some "1") (Some "key") (Some Samples.orgUrl) (Some "7") None None.

(** The SBOM request of repository D rejects. *)
Definition failedD : OrgRepo := mkOrgRepo "D" None.

Definition oneFailure : list OrgRepo :=
  [mkOrgRepo "C" (Some [Samples.rootEntry; Samples.barGPL]); failedD].

(** A repository with an unresolved dependency. *)
Definition repoU : RepoPackages :=
  mkRepoPackages "U" [mkPackageData "foo-lib" "2.1.0" "Unknown"].

End MoreSamples.

(** * Properties *)

(** ** The insertion-ordered map *)

Module JsMapFacts.

Section Facts.

Context {V : Type}.
Implicit Types (k : string) (v : V) (m : JsMap.t V).

Lemma get_set_eq k v m : JsMap.get k (JsMap.set k v m) = Some v.
Proof.
  induction m as [|[k' v'] m IH]; simpl.
  - now rewrite String.eqb_refl.
  - destruct (k =? k') eqn:E; simpl; rewrite ?String.eqb_refl, ?E; auto.
Qed.

Lemma get_set_ne k k' v m :
  k <> k' -> JsMap.get k' (JsMap.set k v m) = JsMap.get k' m.
Proof.
  intros Hne. apply not_eq_sym in Hne.
  induction m as [|[k0 v0] m IH]; simpl.
  - apply String.eqb_neq in Hne. now rewrite Hne.
  - destruct (k =? k0) eqn:E; simpl.
    + apply String.eqb_eq in E. subst k0.
      apply String.eqb_neq in Hne. now rewrite Hne.
    + now rewrite IH.
Qed.

Lemma set_set k v v' m :
  JsMap.set k v' (JsMap.set k v m) = JsMap.set k v' m.
Proof.
  induction m as [|[k0 v0] m IH]; simpl.
  - now rewrite String.eqb_refl.
  - destruct (k =? k0) eqn:E; simpl; rewrite ?String.eqb_refl, ?E; auto.
    now rewrite IH.
Qed.

Lemma has_keys k m : JsMap.has k m = true <-> In k (JsMap.keys m).
Proof.
  unfold JsMap.has.
  induction m as [|[k0 v0] m IH]; simpl.
  - split; [discriminate | tauto].
  - destruct (k =? k0) eqn:E.
    + apply String.eqb_eq in E. subst. tauto.
    + apply String.eqb_neq in E. rewrite IH.
      split; [tauto | intros [H|H]; [congruence | tauto]].
Qed.

Lemma get_none_keys k m : JsMap.get k m = None <-> ~ In k (JsMap.keys m).
Proof.
  rewrite <- has_keys. unfold JsMap.has.
  destruct (JsMap.get k m); split; congruence.
Qed.

Lemma keys_set k v m :
  JsMap.keys (JsMap.set k v m) =
  if JsMap.has k m then JsMap.keys m else (JsMap.keys m ++ [k])%list.
Proof.
  unfold JsMap.has.
  induction m as [|[k0 v0] m IH]; simpl; auto.
  destruct (k =? k0) eqn:E; simpl.
  - apply String.eqb_eq in E. now subst.
  - rewrite IH. now destruct (JsMap.get k m).
Qed.

Lemma in_keys_set k k' v m :
  In k' (JsMap.keys (JsMap.set k v m)) <-> k' = k \/ In k' (JsMap.keys m).
Proof.
  rewrite keys_set. destruct (JsMap.has k m) eqn:E.
  - apply has_keys in E. split; [tauto | intros [->|H]; auto].
  - rewrite in_app_iff. simpl. intuition congruence.
Qed.

Lemma NoDup_keys_set k v m :
  NoDup (JsMap.keys m) -> NoDup (JsMap.keys (JsMap.set k v m)).
Proof.
  intros Hnd. rewrite keys_set. destruct (JsMap.has k m) eqn:E; auto.
  assert (Hk : ~ In k (JsMap.keys m)).
  { rewrite <- has_keys. congruence. }
  clear E. induction Hnd as [|x l Hx Hl IH]; simpl.
  - constructor; [tauto | constructor].
  - simpl in Hk. constructor.
    + rewrite in_app_iff. simpl. intuition congruence.
    + apply IH. tauto.
Qed.

Lemma Forall_set (P : string * V -> Prop) k v m :
  Forall P m -> P (k, v) -> Forall P (JsMap.set k v m).
Proof.
  intros Hm Hkv. induction Hm as [|[k0 v0] l H0 Hl IH]; simpl.
  - now constructor.
  - destruct (k =? k0); now constructor.
Qed.

Lemma get_In k v m : JsMap.get k m = Some v -> In (k, v) m.
Proof.
  induction m as [|[k0 v0] m IH]; simpl; [discriminate|].
  destruct (k =? k0) eqn:E.
  - apply String.eqb_eq in E. intros [= ->]. subst. now left.
  - intros H. right. auto.
Qed.

End Facts.

End JsMapFacts.

(** ** A single insertion *)

Section Insertion.

Import JsMapFacts.

Variables (r : string) (pkg : PackageData) (m : PackageDataMap).

(** The three statements of [insertPkgIntoMap] amount to one write of the
    grown array at its two keys. *)
Lemma insertPkgIntoMap_set :
  insertPkgIntoMap r pkg m =
  JsMap.set (name pkg)
    (JsMap.set (license pkg)
       (occurrences (name pkg) (license pkg) m ++ [toMapped (r, pkg)])%list
       (innerMap (name pkg) m))
    m.
Proof.
  unfold insertPkgIntoMap, occurrences, get2, innerMap, JsMap.has, toMapped.
  destruct (JsMap.get (name pkg) m) as [inner|] eqn:Hn; simpl.
  - rewrite Hn. destruct (JsMap.get (license pkg) inner) as [arr|] eqn:Hl; simpl.
    + now rewrite Hn, Hl.
    + now rewrite get_set_eq, get_set_eq, !set_set.
  - rewrite get_set_eq. simpl. rewrite get_set_eq. simpl.
    rewrite String.eqb_refl. now rewrite !set_set.
Qed.

Lemma get2_insert_same :
  get2 (name pkg) (license pkg) (insertPkgIntoMap r pkg m) =
  Some (occurrences (name pkg) (license pkg) m ++ [toMapped (r, pkg)])%list.
Proof.
  rewrite insertPkgIntoMap_set. unfold get2.
  now rewrite !get_set_eq.
Qed.

Lemma get2_insert_other n l :
  n <> name pkg \/ l <> license pkg ->
  get2 n l (insertPkgIntoMap r pkg m) = get2 n l m.
Proof.
  intros Hne. rewrite insertPkgIntoMap_set. unfold get2.
  destruct (String.eqb_spec n (name pkg)) as [->|Hn].
  - rewrite get_set_eq. destruct Hne as [Hne|Hne]; [congruence|].
    rewrite get_set_ne by congruence. unfold innerMap.
    destruct (JsMap.get (name pkg) m); auto.
  - now rewrite get_set_ne by congruence.
Qed.

Lemma occurrences_insert n l :
  occurrences n l (insertPkgIntoMap r pkg m) =
  (occurrences n l m ++
   if (name pkg =? n) && (license pkg =? l) then [toMapped (r, pkg)] else [])%list.
Proof.
  unfold occurrences at 1.
  destruct (String.eqb_spec (name pkg) n) as [<-|Hn];
    [destruct (String.eqb_spec (license pkg) l) as [<-|Hl]|]; simpl.
  - now rewrite get2_insert_same.
  - rewrite get2_insert_other by (right; congruence).
    now rewrite app_nil_r.
  - rewrite get2_insert_other by (left; congruence).
    now rewrite app_nil_r.
Qed.

Lemma in_keys_insert k :
  In k (JsMap.keys (insertPkgIntoMap r pkg m)) <->
  k = name pkg \/ In k (JsMap.keys m).
Proof. rewrite insertPkgIntoMap_set. apply in_keys_set. Qed.

Lemma licensesOf_insert n l :
  In l (licensesOf n (insertPkgIntoMap r pkg m)) <->
  (n = name pkg /\ l = license pkg) \/ In l (licensesOf n m).
Proof.
  rewrite insertPkgIntoMap_set. unfold licensesOf.
  destruct (String.eqb_spec n (name pkg)) as [->|Hn].
  - rewrite get_set_eq, in_keys_set. unfold innerMap.
    destruct (JsMap.get (name pkg) m); simpl; tauto.
  - rewrite get_set_ne by congruence. tauto.
Qed.

Lemma uniqueKeys_insert :
  uniqueKeys m -> uniqueKeys (insertPkgIntoMap r pkg m).
Proof.
  intros [Hk Hin]. rewrite insertPkgIntoMap_set. split.
  - now apply NoDup_keys_set.
  - apply Forall_set; auto. simpl. apply NoDup_keys_set.
    unfold innerMap.
    destruct (JsMap.get (name pkg) m) as [inner|] eqn:Hn; [|constructor].
    apply get_In in Hn. rewrite Forall_forall in Hin.
    apply (Hin _ Hn).
Qed.

(** No array stored in a map is empty once every array has been written
    by an insertion. *)
Lemma nonEmptyArrays_insert :
  Forall (fun kv => Forall (fun kv' => snd kv' <> []) (snd kv)) m ->
  Forall (fun kv => Forall (fun kv' => snd kv' <> []) (snd kv))
         (insertPkgIntoMap r pkg m).
Proof.
  intros H. rewrite insertPkgIntoMap_set.
  apply Forall_set; auto. simpl. apply Forall_set.
  - unfold innerMap.
    destruct (JsMap.get (name pkg) m) as [inner|] eqn:Hn; [|constructor].
    apply get_In in Hn. rewrite Forall_forall in H. apply (H _ Hn).
  - simpl. now destruct (occurrences (name pkg) (license pkg) m).
Qed.

End Insertion.

(** ** A map's share of the findings *)

Section Selected.

Variable sel : PackageData -> bool.

Lemma insertSelected_cons m (f : Finding) fs :
  insertSelected sel m (f :: fs) =
  insertSelected sel
    (if sel (snd f) then insertPkgIntoMap (fst f) (snd f) m else m) fs.
Proof. reflexivity. Qed.

Lemma insertSelected_app m fs gs :
  insertSelected sel m (fs ++ gs) =
  insertSelected sel (insertSelected sel m fs) gs.
Proof. apply fold_left_app. Qed.

Lemma occurrences_insertSelected n l fs : forall m,
  occurrences n l (insertSelected sel m fs) =
  (occurrences n l m ++ map toMapped (filter (storedUnder sel n l) fs))%list.
Proof.
  induction fs as [|[r p] fs IH]; intros m.
  - simpl. now rewrite app_nil_r.
  - rewrite insertSelected_cons, IH. unfold storedUnder at 2. simpl.
    destruct (sel p); simpl.
    + rewrite occurrences_insert, <- app_assoc. f_equal.
      now destruct ((name p =? n) && (license p =? l)).
    + reflexivity.
Qed.

Lemma in_keys_insertSelected k fs : forall m,
  In k (JsMap.keys (insertSelected sel m fs)) <->
  In k (JsMap.keys m) \/
  exists f, In f fs /\ sel (snd f) = true /\ name (snd f) = k.
Proof.
  induction fs as [|[r p] fs IH]; intros m.
  - simpl. split; [tauto | intros [H|(f & [] & _)]; auto].
  - rewrite insertSelected_cons, IH. simpl. destruct (sel p) eqn:Hs.
    + rewrite in_keys_insert. split.
      * intros [[->|H]|(f & Hf & Hr)]; eauto 6;
          try (right; exists (r, p); now auto).
      * intros [H|(f & [<-|Hf] & Hsf & Hk)]; simpl in *; eauto 6.
    + split.
      * intros [H|(f & Hf & Hr)]; eauto 6.
      * intros [H|(f & [<-|Hf] & Hsf & Hk)]; simpl in *; eauto 6;
          try congruence.
Qed.

Lemma licensesOf_insertSelected n l fs : forall m,
  In l (licensesOf n (insertSelected sel m fs)) <->
  In l (licensesOf n m) \/
  exists f, In f fs /\ storedUnder sel n l f = true.
Proof.
  induction fs as [|[r p] fs IH]; intros m.
  - simpl. split; [tauto | intros [H|(f & [] & _)]; auto].
  - rewrite insertSelected_cons, IH. simpl. destruct (sel p) eqn:Hs.
    + rewrite licensesOf_insert. split.
      * intros [[[-> ->]|H]|(f & Hf & Hr)]; eauto 6.
        right. exists (r, p). split; auto.
        unfold storedUnder. simpl. now rewrite Hs, !String.eqb_refl.
      * intros [H|(f & [<-|Hf] & Hsf)]; eauto 6.
        unfold storedUnder in Hsf. simpl in Hsf.
        apply andb_prop in Hsf as [Hsf Hl]. apply andb_prop in Hsf as [_ Hn].
        apply String.eqb_eq in Hl, Hn. auto.
    + split.
      * intros [H|(f & Hf & Hr)]; eauto 6.
      * intros [H|(f & [<-|Hf] & Hsf)]; eauto 6.
        unfold storedUnder in Hsf. simpl in Hsf. now rewrite Hs in Hsf.
Qed.

Lemma uniqueKeys_insertSelected fs : forall m,
  uniqueKeys m -> uniqueKeys (insertSelected sel m fs).
Proof.
  induction fs as [|[r p] fs IH]; intros m Hm; auto.
  rewrite insertSelected_cons. apply IH. simpl.
  destruct (sel p); auto using uniqueKeys_insert.
Qed.

Lemma nonEmptyArrays_insertSelected fs : forall m,
  Forall (fun kv => Forall (fun kv' => snd kv' <> []) (snd kv)) m ->
  Forall (fun kv => Forall (fun kv' => snd kv' <> []) (snd kv))
         (insertSelected sel m fs).
Proof.
  induction fs as [|[r p] fs IH]; intros m Hm; auto.
  rewrite insertSelected_cons. apply IH. simpl.
  destruct (sel p); auto using nonEmptyArrays_insert.
Qed.

End Selected.

Lemma uniqueKeys_empty : uniqueKeys JsMap.empty.
Proof. split; constructor. Qed.

(** ** The aggregation loop as two independent shares *)

Lemma fold_aggregatePkg blacklist r pkgs : forall bm um,
  fold_left (aggregatePkg blacklist r) pkgs (bm, um) =
  (insertSelected (isBlacklisted blacklist) bm (map (fun pkg => (r, pkg)) pkgs),
   insertSelected isUnknown um (map (fun pkg => (r, pkg)) pkgs)).
Proof.
  induction pkgs as [|p pkgs IH]; intros bm um; auto.
  simpl fold_left. rewrite IH. reflexivity.
Qed.

Lemma fold_aggregate blacklist rs : forall bm um,
  fold_left
    (fun maps r => fold_left (aggregatePkg blacklist (rp_repo r)) (packages r) maps)
    rs (bm, um) =
  (insertSelected (isBlacklisted blacklist) bm (findings rs),
   insertSelected isUnknown um (findings rs)).
Proof.
  induction rs as [|r rs IH]; intros bm um; auto.
  simpl fold_left. rewrite fold_aggregatePkg, IH.
  unfold findings. simpl. now rewrite !insertSelected_app.
Qed.

Lemma aggregate_shares blacklist rs :
  aggregate blacklist rs =
  (insertSelected (isBlacklisted blacklist) JsMap.empty (findings rs),
   insertSelected isUnknown JsMap.empty (findings rs)).
Proof. apply fold_aggregate. Qed.

Lemma includes_In arr x : Js.includes arr x = true <-> In x arr.
Proof.
  unfold Js.includes. rewrite existsb_exists. split.
  - intros (y & Hy & E). apply String.eqb_eq in E. now subst.
  - intros H. exists x. split; auto. apply String.eqb_refl.
Qed.

Lemma findings_perm rs rs' :
  Permutation rs rs' -> Permutation (findings rs) (findings rs').
Proof. intros H. unfold findings. now apply Permutation_flat_map. Qed.

(** ** What the two maps hold after aggregation *)

Lemma get2_none_licensesOf n l (m : PackageDataMap) :
  get2 n l m = None <-> ~ In l (licensesOf n m).
Proof.
  unfold get2, licensesOf. destruct (JsMap.get n m) as [inner|].
  - apply JsMapFacts.get_none_keys.
  - simpl. tauto.
Qed.

Lemma NoDup_licensesOf n (m : PackageDataMap) :
  uniqueKeys m -> NoDup (licensesOf n m).
Proof.
  intros [_ Hin]. unfold licensesOf.
  destruct (JsMap.get n m) as [inner|] eqn:Hn; [|constructor].
  apply JsMapFacts.get_In in Hn. rewrite Forall_forall in Hin.
  apply (Hin _ Hn).
Qed.

Lemma occurrences_blacklistMap blacklist rs n l :
  occurrences n l (fst (aggregate blacklist rs)) =
  map toMapped (filter (storedUnder (isBlacklisted blacklist) n l) (findings rs)).
Proof. rewrite aggregate_shares. apply occurrences_insertSelected. Qed.

Lemma occurrences_noLicenseMap blacklist rs n l :
  occurrences n l (snd (aggregate blacklist rs)) =
  map toMapped (filter (storedUnder isUnknown n l) (findings rs)).
Proof. rewrite aggregate_shares. apply occurrences_insertSelected. Qed.

Lemma in_occurrences_shares sel fs (f : Finding) :
  (forall p q, license p = license q -> sel p = sel q) ->
  In f fs ->
  (In (toMapped f)
      (occurrences (name (snd f)) (license (snd f))
                   (insertSelected sel JsMap.empty fs))
   <-> sel (snd f) = true).
Proof.
  intros Hsel Hf. rewrite occurrences_insertSelected. simpl. split.
  - intros H. apply in_map_iff in H as (g & _ & Hg).
    apply filter_In in Hg as [_ Hg]. unfold storedUnder in Hg.
    apply andb_prop in Hg as [Hg Hl]. apply andb_prop in Hg as [Hs _].
    apply String.eqb_eq in Hl. now rewrite <- (Hsel _ _ Hl).
  - intros Hs. apply in_map. apply filter_In. split; auto.
    unfold storedUnder. now rewrite Hs, !String.eqb_refl.
Qed.

(** C1. Every finding [(r, pkg)] of the repository results has its
    [(repo, version)] pair stored under [noLicenseMap[name][license]] if and
    only if its license is "Unknown", and under
    [blacklistMap[name][license]] if and only if its license is an element
    of the blacklist. Hence, when "Unknown" is not a blacklist entry, a
    finding with license "Unknown" is in the unknown map, and the blacklist
    map has no "Unknown" license under any package name. *)
Theorem aggregate_places_findings
  (blacklist : list string) (rs : list RepoPackages)
  (r : string) (pkg : PackageData) :
  In (r, pkg) (findings rs) ->
  let blacklistMap := fst (aggregate blacklist rs) in
  let noLicenseMap := snd (aggregate blacklist rs) in
  let entry := {| repo := r; mversion := version pkg |} in
  (In entry (occurrences (name pkg) (license pkg) noLicenseMap)
     <-> license pkg = "Unknown") /\
  (In entry (occurrences (name pkg) (license pkg) blacklistMap)
     <-> In (license pkg) blacklist) /\
  (~ In "Unknown" blacklist -> license pkg = "Unknown" ->
   In entry (occurrences (name pkg) "Unknown" noLicenseMap) /\
   forall n, get2 n "Unknown" blacklistMap = None).
Proof.
  intros Hf. cbv zeta. rewrite aggregate_shares. simpl fst. simpl snd.
  assert (HU : In {| repo := r; mversion := version pkg |}
                  (occurrences (name pkg) (license pkg)
                     (insertSelected isUnknown JsMap.empty (findings rs)))
               <-> license pkg = "Unknown").
  { rewrite (in_occurrences_shares isUnknown (findings rs) (r, pkg)); auto.
    - apply String.eqb_eq.
    - intros p q E. unfold isUnknown. now rewrite E. }
  split; [exact HU|]. split.
  - rewrite (in_occurrences_shares (isBlacklisted blacklist) (findings rs) (r, pkg));
      auto.
    + apply includes_In.
    + intros p q E. unfold isBlacklisted. now rewrite E.
  - intros Hnot Hl. split.
    + rewrite <- Hl at 1. now apply HU.
    + intros n. apply get2_none_licensesOf.
      rewrite licensesOf_insertSelected. simpl.
      intros [[]|(f & _ & Hs)]. unfold storedUnder in Hs.
      apply andb_prop in Hs as [Hs Hu]. apply andb_prop in Hs as [Hs _].
      apply String.eqb_eq in Hu. unfold isBlacklisted in Hs.
      rewrite Hu in Hs. apply includes_In in Hs. contradiction.
Qed.

Lemma aggregate_places_findings_witness :
  In ("B", mkPackageData "foo-lib" "2.1.0" "Unknown") (findings [Samples.repoB]) /\
  In {| repo := "B"; mversion := "2.1.0" |}
     (occurrences "foo-lib" "Unknown" (snd (aggregate ["GPL-3.0"] [Samples.repoB]))) /\
  forall n, get2 n "Unknown" (fst (aggregate ["GPL-3.0"] [Samples.repoB])) = None.
Proof.
  assert (H : In ("B", mkPackageData "foo-lib" "2.1.0" "Unknown")
                 (findings [Samples.repoB])) by (simpl; left; reflexivity).
  split; [exact H|].
  destruct (aggregate_places_findings ["GPL-3.0"] [Samples.repoB] "B"
              (mkPackageData "foo-lib" "2.1.0" "Unknown") H) as (_ & _ & K).
  apply K; [simpl; intros [E|[]]; discriminate | reflexivity].
Defined.

(** C6. The maps start empty with unique keys; every insertion keeps each
    package name at most once among the top-level keys and each license at
    most once under a package name, and appends the [(repo, version)] pair
    at the end of the list under [(name, license)] whether or not an equal
    pair is already there, so that inserting the same pair twice leaves it
    twice; both maps of an aggregation therefore have unique keys. *)
Theorem insertion_keeps_unique_keys_and_appends :
  uniqueKeys JsMap.empty /\
  (forall r pkg m,
     uniqueKeys m ->
     uniqueKeys (insertPkgIntoMap r pkg m)) /\
  (forall r pkg m,
     occurrences (name pkg) (license pkg) (insertPkgIntoMap r pkg m) =
     (occurrences (name pkg) (license pkg) m
      ++ [{| repo := r; mversion := version pkg |}])%list) /\
  (forall r pkg m,
     occurrences (name pkg) (license pkg)
       (insertPkgIntoMap r pkg (insertPkgIntoMap r pkg m)) =
     (occurrences (name pkg) (license pkg) m
      ++ [{| repo := r; mversion := version pkg |};
          {| repo := r; mversion := version pkg |}])%list) /\
  (forall blacklist rs,
     uniqueKeys (fst (aggregate blacklist rs)) /\
     uniqueKeys (snd (aggregate blacklist rs))).
Proof.
  split; [apply uniqueKeys_empty|].
  split; [intros; now apply uniqueKeys_insert|].
  assert (A : forall r pkg m,
             occurrences (name pkg) (license pkg) (insertPkgIntoMap r pkg m) =
             (occurrences (name pkg) (license pkg) m
              ++ [{| repo := r; mversion := version pkg |}])%list).
  { intros. rewrite occurrences_insert. now rewrite !String.eqb_refl. }
  split; [exact A|]. split.
  - intros. rewrite !A, <- app_assoc. reflexivity.
  - intros. rewrite aggregate_shares.
    split; apply uniqueKeys_insertSelected, uniqueKeys_empty.
Qed.

Lemma insertion_keeps_unique_keys_and_appends_witness :
  uniqueKeys [("bar", [("GPL-3.0", [mkMapped "C" "3.0.0"])])] /\
  uniqueKeys
    (insertPkgIntoMap "C" (mkPackageData "bar" "3.0.0" "GPL-3.0")
       [("bar", [("GPL-3.0", [mkMapped "C" "3.0.0"])])]).
Proof.
  assert (H : uniqueKeys [("bar", [("GPL-3.0", [mkMapped "C" "3.0.0"])])]).
  { split.
    - simpl. constructor; [simpl; tauto | constructor].
    - constructor; [|constructor]. simpl.
      constructor; [simpl; tauto | constructor]. }
  split; [exact H|].
  destruct insertion_keeps_unique_keys_and_appends as (_ & K & _).
  apply (K "C" (mkPackageData "bar" "3.0.0" "GPL-3.0") _ H).
Defined.

(** ** Reordering the repository results *)

Lemma sameContent_shares sel fs fs' :
  Permutation fs fs' ->
  sameContent (insertSelected sel JsMap.empty fs)
              (insertSelected sel JsMap.empty fs').
Proof.
  intros HP.
  assert (HU : forall gs, uniqueKeys (insertSelected sel JsMap.empty gs)).
  { intros gs. apply uniqueKeys_insertSelected, uniqueKeys_empty. }
  assert (HIn : forall (P : Finding -> Prop),
             (exists f, In f fs /\ P f) <-> (exists f, In f fs' /\ P f)).
  { intros P. split; intros (f & Hf & Pf); exists f; split; auto.
    - now apply (Permutation_in _ HP).
    - now apply (Permutation_in _ (Permutation_sym HP)). }
  split; [|split].
  - apply NoDup_Permutation; try apply HU.
    intros k. rewrite !in_keys_insertSelected.
    now rewrite (HIn (fun f => sel (snd f) = true /\ name (snd f) = k)).
  - intros n. apply NoDup_Permutation; try (apply NoDup_licensesOf, HU).
    intros l. rewrite !licensesOf_insertSelected.
    now rewrite (HIn (fun f => storedUnder sel n l f = true)).
  - intros n l. rewrite !occurrences_insertSelected. simpl.
    apply Permutation_map. clear HIn HU.
    induction HP; simpl.
    + constructor.
    + destruct (storedUnder sel n l x); auto.
    + destruct (storedUnder sel n l x), (storedUnder sel n l y); auto.
      apply perm_swap.
    + eapply perm_trans; eauto.
Qed.

(** C7. Aggregating a permutation of the repository results gives a
    blacklist map and an unknown map with the same top-level keys, the same
    license keys under every package name, and under every
    [(name, license)] the same occurrences up to order. *)
Theorem aggregate_permutation_invariant
  (blacklist : list string) (rs rs' : list RepoPackages) :
  Permutation rs rs' ->
  sameContent (fst (aggregate blacklist rs)) (fst (aggregate blacklist rs')) /\
  sameContent (snd (aggregate blacklist rs)) (snd (aggregate blacklist rs')).
Proof.
  intros HP. apply findings_perm in HP. rewrite !aggregate_shares.
  split; now apply sameContent_shares.
Qed.

Lemma aggregate_permutation_invariant_witness :
  Permutation [Samples.repoC; Samples.repoD] [Samples.repoD; Samples.repoC] /\
  sameContent
    (fst (aggregate ["GPL-3.0"] [Samples.repoC; Samples.repoD]))
    (fst (aggregate ["GPL-3.0"] [Samples.repoD; Samples.repoC])) /\
  sameContent
    (snd (aggregate ["GPL-3.0"] [Samples.repoC; Samples.repoD]))
    (snd (aggregate ["GPL-3.0"] [Samples.repoD; Samples.repoC])).
Proof.
  assert (H : Permutation [Samples.repoC; Samples.repoD]
                          [Samples.repoD; Samples.repoC]) by apply perm_swap.
  split; [exact H|].
  apply (aggregate_permutation_invariant ["GPL-3.0"] _ _ H).
Defined.

(** ** License resolution *)

Section Resolution.

Context {World : Type}.
Variable packageJson : Registry World.

Lemma concludeLicense_declared pkg l n :
  licenseConcluded pkg = Some l ->
  concludeLicense packageJson pkg n = (l, n).
Proof. intros H. unfold concludeLicense. now rewrite H. Qed.

Lemma concludeLicense_fallback pkg n :
  licenseConcluded pkg = None ->
  concludeLicense packageJson pkg n =
  (match fst (packageJson (asString (sbom_name pkg)) (versionInfo pkg) (world n)) with
   | Fulfilled (Some l) => l
   | _ => "Unknown"
   end,
   mkNet (snd (packageJson (asString (sbom_name pkg)) (versionInfo pkg) (world n)))
         (requests n ++ [(asString (sbom_name pkg), versionInfo pkg)])%list).
Proof.
  intros H. unfold concludeLicense. rewrite H.
  unfold resolveLicenseFromNPM, bind, requestPackageJson, ret.
  destruct (packageJson _ _ _) as [[|[l|]] w']; reflexivity.
Qed.

Lemma toPackageData_fields pkg n :
  name (fst (toPackageData packageJson pkg n)) = asString (sbom_name pkg) /\
  version (fst (toPackageData packageJson pkg n)) =
    match versionInfo pkg with
    | Some v => v
    | None => "Missing version data"
    end /\
  license (fst (toPackageData packageJson pkg n)) =
    Js.replaceSpaces (fst (concludeLicense packageJson pkg n)) /\
  snd (toPackageData packageJson pkg n) = snd (concludeLicense packageJson pkg n).
Proof.
  unfold toPackageData, bind, ret.
  destruct (concludeLicense packageJson pkg n) as [raw n']. simpl. auto.
Qed.

End Resolution.

(** C2. An entry whose [licenseConcluded] is present yields a finding
    whose license is that string with every space replaced by a hyphen;
    the registry is not consulted: no request is made and the outside
    world is left as it was, whatever the registry and its state. *)
Theorem declared_license_is_normalized_without_registry
  {World : Type} (packageJson : Registry World)
  (pkg : SbomPackage) (declared : string) (n : Net World) :
  licenseConcluded pkg = Some declared ->
  license (fst (toPackageData packageJson pkg n)) = Js.replaceSpaces declared /\
  snd (toPackageData packageJson pkg n) = n.
Proof.
  intros H.
  destruct (toPackageData_fields packageJson pkg n) as (_ & _ & Hl & Hn).
  rewrite Hl, Hn, (concludeLicense_declared packageJson pkg declared n H).
  auto.
Qed.

Lemma declared_license_is_normalized_without_registry_witness :
  licenseConcluded Samples.unversioned = Some "Apache License 2.0" /\
  license (fst (toPackageData Samples.allMIT Samples.unversioned Samples.net0))
    = "Apache-License-2.0" /\
  snd (toPackageData Samples.allMIT Samples.unversioned Samples.net0)
    = Samples.net0.
Proof.
  split; [reflexivity|].
  apply (declared_license_is_normalized_without_registry
           Samples.allMIT Samples.unversioned "Apache License 2.0" Samples.net0).
  reflexivity.
Defined.

(** ** Ingestion of the repositories *)

Section RepositoryIngestion.

Context {World : Type}.
Variable packageJson : Registry World.

Lemma promiseAllMap_cons {A B : Type} (f : A -> IO World B) x xs n :
  promiseAllMap f (x :: xs) n =
  (fst (f x n) :: fst (promiseAllMap f xs (snd (f x n))),
   snd (promiseAllMap f xs (snd (f x n)))).
Proof.
  simpl. unfold bind, ret. destruct (f x n) as [y n1]. simpl.
  now destruct (promiseAllMap f xs n1).
Qed.

Lemma ingestRepo_error r n :
  errorOf (fst (ingestRepo packageJson r n)) =
  if sbomAvailable r then None else Some ReposUnavailable.
Proof.
  unfold ingestRepo, sbomAvailable.
  destruct (sbomPackages r) as [pkgs|]; [|reflexivity].
  unfold bind, ret. now destruct (ingestPackages packageJson pkgs n).
Qed.

Lemma ingestRepos_error repos : forall n,
  errorOf (fst (ingestRepos packageJson repos n)) =
  if forallb sbomAvailable repos then None else Some ReposUnavailable.
Proof.
  unfold ingestRepos, bind, ret. intros n.
  destruct (promiseAllMap (ingestRepo packageJson) repos n) as [os n'] eqn:E.
  simpl. assert (Hos : os = fst (promiseAllMap (ingestRepo packageJson) repos n))
    by now rewrite E.
  clear E. subst os. revert n.
  induction repos as [|r repos IH]; intros n; [reflexivity|].
  rewrite promiseAllMap_cons. simpl fst.
  pose proof (ingestRepo_error r n) as Hr.
  destruct (fst (ingestRepo packageJson r n)) as [e|a]; simpl in *.
  - destruct (sbomAvailable r); [discriminate|]. simpl. exact Hr.
  - destruct (sbomAvailable r); [|discriminate]. simpl.
    specialize (IH (snd (ingestRepo packageJson r n))).
    now destruct (allReturned _).
Qed.

End RepositoryIngestion.

Lemma run_error_any_registry {World World' : Type}
  (packageJson : Registry World) (packageJson' : Registry World')
  (env : Env) (gh : GitHub) (n : Net World) (n' : Net World') :
  errorOf (fst (run packageJson env gh n)) =
  errorOf (fst (run packageJson' env gh n')).
Proof.
  unfold run.
  destruct (negb _ || negb _ || negb _); [reflexivity|].
  destruct (LICENSE_BLACKLIST env) as [lb|]; [|reflexivity].
  destruct (lb =? EmptyString); [reflexivity|].
  destruct (GH_ORG_URL env) as [url|]; [|reflexivity].
  destruct (url =? EmptyString); [reflexivity|].
  destruct (negb (appData gh)); [reflexivity|].
  destruct (orgRepos gh) as [repos|]; [|reflexivity].
  unfold bind.
  pose proof (ingestRepos_error packageJson
                (filter (fun r => negb (repo_name r =? ".github")) repos) n) as H.
  pose proof (ingestRepos_error packageJson'
                (filter (fun r => negb (repo_name r =? ".github")) repos) n') as H'.
  destruct (ingestRepos packageJson _ n) as [[e|l] n1];
    destruct (ingestRepos packageJson' _ n') as [[e'|l'] n1'];
    simpl in *; congruence.
Qed.

(** C3. For an entry with no declared license, when the registry request
    rejects or its metadata has no license field, the finding's license is
    exactly "Unknown"; and whether [run] throws, and with which error, is
    the same under every registry and every state of it, so that no
    registry failure aborts the scan. *)
Theorem failed_fallback_resolves_to_Unknown :
  (forall (World : Type) (packageJson : Registry World)
          (pkg : SbomPackage) (n : Net World),
     licenseConcluded pkg = None ->
     (let reply :=
        fst (packageJson (asString (sbom_name pkg)) (versionInfo pkg) (world n)) in
      reply = Rejected \/ reply = Fulfilled None) ->
     license (fst (toPackageData packageJson pkg n)) = "Unknown") /\
  (forall (World World' : Type)
          (packageJson : Registry World) (packageJson' : Registry World')
          (env : Env) (gh : GitHub) (n : Net World) (n' : Net World'),
     errorOf (fst (run packageJson env gh n)) =
     errorOf (fst (run packageJson' env gh n'))).
Proof.
  split.
  - intros World packageJson pkg n Hnone Hreply. cbv zeta in Hreply.
    destruct (toPackageData_fields packageJson pkg n) as (_ & _ & Hl & _).
    rewrite Hl, (concludeLicense_fallback packageJson pkg n Hnone). simpl.
    destruct Hreply as [-> | ->]; reflexivity.
  - intros. apply run_error_any_registry.
Qed.

Lemma failed_fallback_resolves_to_Unknown_witness :
  licenseConcluded Samples.fooLib = None /\
  fst (Samples.offline "foo-lib" (Some "2.1.0") tt) = Rejected /\
  license (fst (toPackageData Samples.offline Samples.fooLib Samples.net0))
    = "Unknown".
Proof.
  split; [reflexivity|]. split; [reflexivity|].
  destruct failed_fallback_resolves_to_Unknown as [K _].
  apply (K unit Samples.offline Samples.fooLib Samples.net0).
  - reflexivity.
  - left. reflexivity.
Defined.

(** C4, as the specification states it, fails: an entry whose declared
    license is the empty string is resolved to that empty string and the
    registry, which knows the package as MIT-licensed, is not asked. *)
Lemma empty_declared_license_does_not_consult_registry :
  ~ (forall (World : Type) (packageJson : Registry World)
            (pkg : SbomPackage) (n : Net World),
       licenseConcluded pkg = None \/ licenseConcluded pkg = Some EmptyString ->
       consultsRegistry packageJson pkg n).
Proof.
  intros H.
  specialize (H unit Samples.allMIT Samples.emptyLicense Samples.net0
                (or_intror eq_refl)).
  unfold consultsRegistry in H. vm_compute in H. discriminate H.
Qed.

(** C4, amended. The resolver returns the declared license verbatim
    whenever it is present, the empty string included, and then makes no
    registry request; only when the declared license is absent does it
    consult the registry, with one request for the package name and
    version, and return the registry's license field, or "Unknown" when the
    request rejects or the field is missing. *)
Theorem concludeLicense_by_presence
  {World : Type} (packageJson : Registry World)
  (pkg : SbomPackage) (n : Net World) :
  (forall declared,
     licenseConcluded pkg = Some declared ->
     concludeLicense packageJson pkg n = (declared, n)) /\
  (licenseConcluded pkg = None ->
   consultsRegistry packageJson pkg n /\
   requests (snd (concludeLicense packageJson pkg n)) =
     (requests n ++ [(asString (sbom_name pkg), versionInfo pkg)])%list /\
   fst (concludeLicense packageJson pkg n) =
     match fst (packageJson (asString (sbom_name pkg)) (versionInfo pkg) (world n)) with
     | Fulfilled (Some l) => l
     | _ => "Unknown"
     end).
Proof.
  split.
  - intros declared H. now apply concludeLicense_declared.
  - intros H. split.
    + unfold consultsRegistry, concludeLicense. now rewrite H.
    + now rewrite (concludeLicense_fallback packageJson pkg n H).
Qed.

Lemma concludeLicense_by_presence_witness :
  licenseConcluded Samples.emptyLicense = Some EmptyString /\
  concludeLicense Samples.allMIT Samples.emptyLicense Samples.net0
    = (EmptyString, Samples.net0) /\
  licenseConcluded Samples.fooLib = None /\
  fst (concludeLicense Samples.allMIT Samples.fooLib Samples.net0) = "MIT" /\
  requests (snd (concludeLicense Samples.allMIT Samples.fooLib Samples.net0))
    = [("foo-lib", Some "2.1.0")].
Proof.
  split; [reflexivity|]. split.
  - apply (concludeLicense_by_presence Samples.allMIT Samples.emptyLicense
             Samples.net0).
    reflexivity.
  - split; [reflexivity|].
    destruct (concludeLicense_by_presence Samples.allMIT Samples.fooLib
                Samples.net0) as [_ K].
    destruct (K eq_refl) as (_ & Hreq & Hres). split.
    + exact Hres.
    + exact Hreq.
Defined.

(** ** The filter of the SBOM's packages *)

Lemma keepPackage_false_iff e : keepPackage e = false <-> droppedEntry e.
Proof.
  unfold keepPackage, droppedEntry, noName, Js.truthy.
  destruct e as [[nm|] [v|] lc]; simpl.
  - destruct (String.eqb_spec nm EmptyString) as [->|Hn]; simpl.
    + intuition.
    + destruct (String.eqb_spec v "main") as [->|Hv]; simpl.
      * intuition.
      * split; [discriminate|]. intros [[H|H]|H]; congruence.
  - destruct (String.eqb_spec nm EmptyString) as [->|Hn]; simpl.
    + intuition.
    + split; [discriminate|]. intros [[H|H]|H]; congruence.
  - intuition.
  - intuition.
Qed.

Lemma keepPackage_named e :
  keepPackage e = true -> sbom_name e = Some (asString (sbom_name e)).
Proof.
  unfold keepPackage, Js.truthy.
  destruct (sbom_name e); simpl; [reflexivity | discriminate].
Qed.

(** C5. Ingesting a package list drops every entry with no name (the name
    is absent or empty, a falsy [pkg.name]) and every entry whose
    [versionInfo] is "main", and gives exactly one finding for each other
    entry, in order, named after the entry and with the entry's
    [versionInfo] as version, or "Missing version data" when it is
    absent. *)
Theorem ingestPackages_entry_by_entry
  {World : Type} (packageJson : Registry World)
  (pkgs : list SbomPackage) (n : Net World) :
  Ingested pkgs (fst (ingestPackages packageJson pkgs n)).
Proof.
  unfold ingestPackages. revert n.
  induction pkgs as [|e es IH]; intros n; simpl.
  - constructor.
  - destruct (keepPackage e) eqn:Hk.
    + rewrite promiseAllMap_cons. simpl fst.
      destruct (toPackageData_fields packageJson e n) as (Hn & Hv & _ & _).
      apply Ingested_keep; auto.
      * rewrite <- keepPackage_false_iff. congruence.
      * rewrite Hn. now apply keepPackage_named.
    + apply Ingested_drop; auto. now apply keepPackage_false_iff.
Qed.

(** ** Licenses carry no space *)

Lemma chars_replaceSpaces s :
  Js.chars (Js.replaceSpaces s) =
  map (fun c => if Ascii.eqb c " "%char then "-"%char else c) (Js.chars s).
Proof. induction s as [|c s IH]; simpl; congruence. Qed.

Lemma replaceSpaces_no_space s : ~ Js.hasSpace (Js.replaceSpaces s).
Proof.
  unfold Js.hasSpace. rewrite chars_replaceSpaces, in_map_iff.
  intros (c & Hc & _). destruct (Ascii.eqb_spec c " "%char); congruence.
Qed.

Section SpaceFree.

Context {World : Type}.
Variable packageJson : Registry World.

Lemma toPackageData_spaceFree pkg n :
  spaceFree (fst (toPackageData packageJson pkg n)).
Proof.
  unfold spaceFree.
  destruct (toPackageData_fields packageJson pkg n) as (_ & _ & -> & _).
  apply replaceSpaces_no_space.
Qed.

Lemma promiseAllMap_Forall {A B : Type} (f : A -> IO World B) (P : B -> Prop) :
  (forall x n, P (fst (f x n))) ->
  forall xs n, Forall P (fst (promiseAllMap f xs n)).
Proof.
  intros Hf. induction xs as [|x xs IH]; intros n.
  - constructor.
  - rewrite promiseAllMap_cons. simpl. constructor; auto.
Qed.

Lemma ingestPackages_spaceFree pkgs n :
  Forall spaceFree (fst (ingestPackages packageJson pkgs n)).
Proof. apply promiseAllMap_Forall, toPackageData_spaceFree. Qed.

Lemma ingestRepo_spaceFree r n rp :
  fst (ingestRepo packageJson r n) = Returned rp ->
  Forall spaceFree (packages rp).
Proof.
  unfold ingestRepo. destruct (sbomPackages r) as [pkgs|]; [|discriminate].
  unfold bind, ret.
  pose proof (ingestPackages_spaceFree pkgs n) as H.
  destruct (ingestPackages packageJson pkgs n) as [ps n1]. simpl in *.
  now intros [= <-].
Qed.

Lemma allReturned_Forall {A : Type} (Q : A -> Prop) (os : list (Outcome A)) :
  Forall (fun o => forall a, o = Returned a -> Q a) os ->
  forall l, allReturned os = Returned l -> Forall Q l.
Proof.
  induction 1 as [|[e|a] os Ho Hos IH]; simpl; intros l Hl.
  - injection Hl as <-. constructor.
  - discriminate.
  - destruct (allReturned os) as [e|l']; [discriminate|].
    injection Hl as <-. constructor; auto.
Qed.

Lemma ingestRepos_spaceFree repos n pkgsByRepo n' :
  ingestRepos packageJson repos n = (Returned pkgsByRepo, n') ->
  forall r pkg, In (r, pkg) (findings pkgsByRepo) -> spaceFree pkg.
Proof.
  unfold ingestRepos, bind, ret. intros H.
  pose proof (promiseAllMap_Forall (ingestRepo packageJson)
                (fun o => forall a, o = Returned a ->
                                    Forall spaceFree (packages a))
                (fun x m a E => ingestRepo_spaceFree x m a E) repos n) as HF.
  destruct (promiseAllMap (ingestRepo packageJson) repos n) as [os n1].
  simpl in HF. injection H as H _.
  pose proof (allReturned_Forall _ os HF _ H) as HQ.
  intros r pkg Hin. unfold findings in Hin.
  apply in_flat_map in Hin as (rp & Hrp & Hin).
  apply in_map_iff in Hin as (p & [= _ <-] & Hp).
  rewrite Forall_forall in HQ. specialize (HQ _ Hrp).
  rewrite Forall_forall in HQ. auto.
Qed.

End SpaceFree.

Lemma get_of_In {V : Type} k (v : V) (m : JsMap.t V) :
  NoDup (JsMap.keys m) -> In (k, v) m -> JsMap.get k m = Some v.
Proof.
  induction m as [|[k0 v0] m IH]; simpl; [tauto|].
  intros Hnd [E|Hin].
  - injection E as -> ->. now rewrite String.eqb_refl.
  - inversion Hnd as [|? ? Hk Hm]; subst.
    destruct (String.eqb_spec k k0) as [->|Hne]; auto.
    exfalso. apply Hk. apply (in_map fst) in Hin. exact Hin.
Qed.

Lemma licenseKeys_licensesOf (m : PackageDataMap) l :
  uniqueKeys m ->
  In l (licenseKeys m) -> exists n, In l (licensesOf n m).
Proof.
  intros [Hnd _] Hin. unfold licenseKeys in Hin.
  apply in_flat_map in Hin as ([n inner] & Hm & Hl).
  exists n. unfold licensesOf. now rewrite (get_of_In _ _ _ Hnd Hm).
Qed.

Lemma licenseKeys_shares sel fs l :
  In l (licenseKeys (insertSelected sel JsMap.empty fs)) ->
  exists f, In f fs /\ sel (snd f) = true /\ license (snd f) = l.
Proof.
  intros Hin. apply licenseKeys_licensesOf in Hin as (n & Hin).
  - apply licensesOf_insertSelected in Hin as [[]|(f & Hf & Hs)].
    exists f. unfold storedUnder in Hs.
    apply andb_prop in Hs as [Hs Hl]. apply andb_prop in Hs as [Hs _].
    apply String.eqb_eq in Hl. auto.
  - apply uniqueKeys_insertSelected, uniqueKeys_empty.
Qed.

(** C10. For the repository results of an ingestion and the blacklist
    split from the configured string at its commas, no license key of
    either aggregation map contains a space; and for every blacklist entry
    that contains a space, the comparison of any finding's license with
    that entry is false, so that the entry is no license key of the
    blacklist map under any package name. *)
Theorem license_keys_have_no_space
  {World : Type} (packageJson : Registry World)
  (repos : list OrgRepo) (licenseBlacklist : string)
  (n n' : Net World) (pkgsByRepo : list RepoPackages) :
  ingestRepos packageJson repos n = (Returned pkgsByRepo, n') ->
  let blacklist := Js.splitComma licenseBlacklist in
  let blacklistMap := fst (aggregate blacklist pkgsByRepo) in
  let noLicenseMap := snd (aggregate blacklist pkgsByRepo) in
  (forall l,
     In l (licenseKeys blacklistMap) \/ In l (licenseKeys noLicenseMap) ->
     ~ Js.hasSpace l) /\
  (forall entry,
     In entry blacklist -> Js.hasSpace entry ->
     (forall r pkg,
        In (r, pkg) (findings pkgsByRepo) -> (license pkg =? entry) = false) /\
     ~ In entry (licenseKeys blacklistMap) /\
     (forall pkgName, get2 pkgName entry blacklistMap = None)).
Proof.
  intros Hing. cbv zeta. rewrite aggregate_shares. simpl fst. simpl snd.
  pose proof (ingestRepos_spaceFree packageJson repos n pkgsByRepo n' Hing) as HS.
  assert (HK : forall sel l,
             In l (licenseKeys (insertSelected sel JsMap.empty (findings pkgsByRepo))) ->
             ~ Js.hasSpace l).
  { intros sel l Hin. apply licenseKeys_shares in Hin as ([r p] & Hf & _ & <-).
    apply (HS r p Hf). }
  split.
  - intros l [H|H]; eapply HK; eauto.
  - intros entry _ Hsp. split; [|split].
    + intros r pkg Hf. apply String.eqb_neq. intros E.
      apply (HS r pkg Hf). now rewrite E.
    + intros Hin. now apply HK in Hin.
    + intros pkgName. apply get2_none_licensesOf.
      rewrite licensesOf_insertSelected. simpl.
      intros [[]|([r p] & Hf & Hs)]. unfold storedUnder in Hs.
      apply andb_prop in Hs as [_ Hl]. apply String.eqb_eq in Hl.
      simpl in Hl. apply (HS r p Hf). unfold spaceFree. now rewrite Hl.
Qed.

Lemma license_keys_have_no_space_witness :
  ingestRepos Samples.offline
    [mkOrgRepo "D" (Some [Samples.barAGPL; Samples.unversioned])] Samples.net0
  = (Returned
       [mkRepoPackages "D"
          [mkPackageData "bar" "3.0.0" "AGPL-3.0";
           mkPackageData "baz" "Missing version data" "Apache-License-2.0"]],
     Samples.net0) /\
  In "Apache License 2.0" (Js.splitComma "GPL-3.0,AGPL-3.0,Apache License 2.0") /\
  Js.hasSpace "Apache License 2.0" /\
  forall pkgName,
    get2 pkgName "Apache License 2.0"
      (fst (aggregate (Js.splitComma "GPL-3.0,AGPL-3.0,Apache License 2.0")
              [mkRepoPackages "D"
                 [mkPackageData "bar" "3.0.0" "AGPL-3.0";
                  mkPackageData "baz" "Missing version data" "Apache-License-2.0"]]))
    = None.
Proof.
  assert (H1 : ingestRepos Samples.offline
                 [mkOrgRepo "D" (Some [Samples.barAGPL; Samples.unversioned])]
                 Samples.net0
               = (Returned
                    [mkRepoPackages "D"
                       [mkPackageData "bar" "3.0.0" "AGPL-3.0";
                        mkPackageData "baz" "Missing version data"
                                      "Apache-License-2.0"]],
                  Samples.net0)) by reflexivity.
  assert (H2 : In "Apache License 2.0"
                  (Js.splitComma "GPL-3.0,AGPL-3.0,Apache License 2.0"))
    by (vm_compute; auto).
  assert (H3 : Js.hasSpace "Apache License 2.0")
    by (unfold Js.hasSpace; simpl; auto 10).
  split; [exact H1|]. split; [exact H2|]. split; [exact H3|].
  destruct (license_keys_have_no_space Samples.offline _
              "GPL-3.0,AGPL-3.0,Apache License 2.0" _ _ _ H1) as [_ K].
  destruct (K "Apache License 2.0" H2 H3) as (_ & _ & G). exact G.
Defined.

(** ** The report *)

Lemma append_empty_r (s : string) : s ++ EmptyString = s.
Proof. induction s as [|c s IH]; simpl; congruence. Qed.

Lemma mdProblems_sections orgUrl (blacklistPkgs noLicensePkgs : list PkgEntry) :
  mdProblems orgUrl blacklistPkgs noLicensePkgs =
  mdBanner
  ++ (if (length blacklistPkgs =? 0)%nat then EmptyString
      else Js.nl ++ Js.nl
           ++ generateMDFromPkgs orgUrl blacklistPkgs noLicensePkgs blacklisted)
  ++ (if (length noLicensePkgs =? 0)%nat then EmptyString
      else Js.nl ++ Js.nl
           ++ generateMDFromPkgs orgUrl blacklistPkgs noLicensePkgs missing).
Proof.
  unfold mdProblems, mdComponents.
  generalize (generateMDFromPkgs orgUrl blacklistPkgs noLicensePkgs blacklisted).
  generalize (generateMDFromPkgs orgUrl blacklistPkgs noLicensePkgs missing).
  intros sm sb.
  destruct blacklistPkgs, noLicensePkgs; simpl;
    rewrite ?append_empty_r; reflexivity.
Qed.

Lemma length_arraifyMap (m : PackageDataMap) :
  length (arraifyMap m) = JsMap.size m.
Proof. apply length_map. Qed.

(** C8. The Markdown report a run prints is the banner, followed by the
    blacklisted section exactly when the blacklist map is not empty,
    followed by the missing section exactly when the unknown map is not
    empty, each section after a blank line; with both maps empty it is the
    banner alone. *)
Theorem report_is_banner_and_nonempty_sections
  (orgUrl : string) (slackWebhookUrl : option string)
  (blacklist : list string) (pkgsByRepo : list RepoPackages) :
  let blacklistMap := fst (aggregate blacklist pkgsByRepo) in
  let noLicenseMap := snd (aggregate blacklist pkgsByRepo) in
  let section :=
    generateMDFromPkgs orgUrl (arraifyMap blacklistMap) (arraifyMap noLicenseMap) in
  logged (report orgUrl slackWebhookUrl blacklist pkgsByRepo) =
    mdBanner
    ++ (if (JsMap.size blacklistMap =? 0)%nat then EmptyString
        else Js.nl ++ Js.nl ++ section blacklisted)
    ++ (if (JsMap.size noLicenseMap =? 0)%nat then EmptyString
        else Js.nl ++ Js.nl ++ section missing)
  /\
  (JsMap.size blacklistMap = 0 -> JsMap.size noLicenseMap = 0 ->
   logged (report orgUrl slackWebhookUrl blacklist pkgsByRepo) = mdBanner).
Proof.
  cbv zeta. unfold report.
  destruct (aggregate blacklist pkgsByRepo) as [bm um]. simpl.
  rewrite mdProblems_sections, !length_arraifyMap. split; [reflexivity|].
  intros -> ->. reflexivity.
Qed.

Lemma report_is_banner_and_nonempty_sections_witness :
  JsMap.size (fst (aggregate ["GPL-3.0"] [mkRepoPackages "A"
     [mkPackageData "left-pad" "1.0.0" "MIT"]])) = 0 /\
  JsMap.size (snd (aggregate ["GPL-3.0"] [mkRepoPackages "A"
     [mkPackageData "left-pad" "1.0.0" "MIT"]])) = 0 /\
  logged (report Samples.orgUrl None ["GPL-3.0"]
            [mkRepoPackages "A" [mkPackageData "left-pad" "1.0.0" "MIT"]])
  = "```license-scanner``` has detected dependency licensing issues:".
Proof.
  split; [reflexivity|]. split; [reflexivity|].
  apply (report_is_banner_and_nonempty_sections Samples.orgUrl None ["GPL-3.0"]
           [mkRepoPackages "A" [mkPackageData "left-pad" "1.0.0" "MIT"]]);
    reflexivity.
Defined.

(** ** Rows of a package with several licenses *)

Lemma mapiFrom_after_first {A B : Type} (f : A -> nat -> B) (g : A -> B) xs :
  (forall x i, f x (S i) = g x) ->
  forall i, Js.mapiFrom (S i) f xs = map g xs.
Proof.
  intros Hf. induction xs as [|x xs IH]; intros i; simpl; [reflexivity|].
  now rewrite Hf, IH.
Qed.

(** In the Markdown table the rows after the first leave the package-name
    cell blank and keep the license and the repository links. *)
Lemma md_rows_of_package pkgName row rows :
  Js.mapi (mdRow pkgName) (row :: rows) =
  ("| ```" ++ pkgName ++ "``` | " ++ fst row ++ " | "
   ++ Js.arrayToString (snd row) ++ " |")
  :: map (fun row' => "| | " ++ fst row' ++ " | "
                      ++ Js.arrayToString (snd row') ++ " |") rows.
Proof.
  unfold Js.mapi. simpl. f_equal. now apply mapiFrom_after_first.
Qed.

(** C9: the Slack rendering does not do what the claim says. The rows of a
    package after its first are built from the repository links alone, so
    the license of every later row is missing from the message. In the run
    where repositories C and D depend on [bar] under GPL-3.0 and AGPL-3.0,
    both blacklisted, the Markdown report names AGPL-3.0 and the Slack text
    does not. *)
Theorem slack_rows_after_first_omit_license :
  (forall pkgName row rows,
     Js.mapi (slackRow pkgName) (row :: rows) =
     ("*" ++ pkgName ++ " - " ++ fst row ++ "*" ++ Js.nl ++ " - "
      ++ Js.arrayToString (snd row))
     :: map (fun row' => "- " ++ Js.arrayToString (snd row')) rows) /\
  (let out :=
     fst (run Samples.offline Samples.env Samples.twoLicenses Samples.net0) in
   match out with
   | Threw _ => False
   | Returned rep =>
       posted rep =
         Some ("*License Blacklist Scanner Results*" ++ Js.nl ++ Js.nl ++
               "Dependencies with blacklisted licenses:" ++ Js.nl ++ Js.nl ++
               "*bar - GPL-3.0*" ++ Js.nl ++
               " - `C` (<https://github.com/acme/C|link>) @ 3.0.0" ++ Js.nl ++
               "- `D` (<https://github.com/acme/D|link>) @ 3.0.0" ++ Js.nl ++ Js.nl ++
               "Please remove these dependencies.") /\
       Js.strIncludes "| | AGPL-3.0 | " (logged rep) = true /\
       match posted rep with
       | Some text => Js.strIncludes "AGPL-3.0" text
       | None => true
       end = false
   end).
Proof.
  split.
  - intros pkgName row rows. unfold Js.mapi. simpl. f_equal.
    now apply mapiFrom_after_first.
  - vm_compute. repeat split.
Qed.

(** * Further properties of the pipeline *)

(** ** Parsing the blacklist and normalizing licenses *)

Lemma append_assoc_str (a b c : string) : (a ++ b) ++ c = a ++ b ++ c.
Proof. induction a as [|x a IH]; simpl; congruence. Qed.

Lemma chars_append a b : Js.chars (a ++ b) = (Js.chars a ++ Js.chars b)%list.
Proof. induction a as [|x a IH]; simpl; congruence. Qed.

Lemma splitFrom_cons acc s : exists e rest, Js.splitFrom acc s = e :: rest.
Proof.
  revert acc. induction s as [|c s IH]; intros acc; simpl; eauto.
  destruct (Ascii.eqb c ","%char); eauto.
Qed.

Lemma join_cons_cons sep x y l :
  Js.join sep (x :: y :: l) = x ++ sep ++ Js.join sep (y :: l).
Proof. reflexivity. Qed.

Lemma join_splitFrom s : forall acc,
  Js.join "," (Js.splitFrom acc s) = acc ++ s.
Proof.
  induction s as [|c s IH]; intros acc; simpl.
  - now rewrite append_empty_r.
  - destruct (Ascii.eqb_spec c ","%char) as [->|Hc].
    + destruct (splitFrom_cons EmptyString s) as (e & rest & E).
      rewrite E, join_cons_cons, <- E, IH. reflexivity.
    + rewrite IH, append_assoc_str. reflexivity.
Qed.

Lemma length_splitFrom s : forall acc,
  length (Js.splitFrom acc s) = S (commas s).
Proof.
  unfold commas.
  induction s as [|c s IH]; intros acc; simpl; auto.
  destruct (Ascii.eqb_spec c ","%char) as [->|Hc]; simpl.
  - rewrite IH. destruct (Ascii.ascii_dec ","%char ","%char); congruence.
  - rewrite IH. destruct (Ascii.ascii_dec c ","%char); congruence.
Qed.

Lemma splitFrom_no_comma s : forall acc e,
  In e (Js.splitFrom acc s) ->
  In ","%char (Js.chars e) -> In ","%char (Js.chars acc).
Proof.
  induction s as [|c s IH]; intros acc e; simpl.
  - intros [<-|[]]; auto.
  - destruct (Ascii.eqb_spec c ","%char) as [->|Hc].
    + intros [<-|Hin] He; auto. destruct (IH EmptyString e Hin He).
    + intros Hin He. specialize (IH _ _ Hin He).
      rewrite chars_append, in_app_iff in IH. simpl in IH.
      destruct IH as [H|[H|[]]]; auto. congruence.
Qed.

(** X1. Splitting the blacklist string at its commas loses nothing:
    joining the entries with commas gives the string back; there is one
    entry more than there are commas, so never none; and no entry contains
    a comma. *)
Theorem splitComma_roundtrip (s : string) :
  Js.join "," (Js.splitComma s) = s /\
  length (Js.splitComma s) = S (commas s) /\
  (forall e, In e (Js.splitComma s) -> ~ In ","%char (Js.chars e)).
Proof.
  unfold Js.splitComma. split; [|split].
  - apply (join_splitFrom s EmptyString).
  - apply length_splitFrom.
  - intros e Hin He. apply (splitFrom_no_comma s EmptyString e Hin He).
Qed.

Lemma length_replaceSpaces s :
  String.length (Js.replaceSpaces s) = String.length s.
Proof. induction s as [|c s IH]; simpl; congruence. Qed.

Lemma replaceSpaces_fixed s : ~ Js.hasSpace s -> Js.replaceSpaces s = s.
Proof.
  unfold Js.hasSpace. induction s as [|c s IH]; simpl; auto.
  intros H. destruct (Ascii.eqb_spec c " "%char) as [->|Hc].
  - exfalso. auto.
  - rewrite IH; auto.
Qed.

(** X2. Replacing the spaces of a license by hyphens keeps its length, is
    the identity exactly on the strings without a space, and so changes
    nothing when applied a second time. *)
Theorem replaceSpaces_normalizes (s : string) :
  String.length (Js.replaceSpaces s) = String.length s /\
  (Js.replaceSpaces s = s <-> ~ Js.hasSpace s) /\
  Js.replaceSpaces (Js.replaceSpaces s) = Js.replaceSpaces s.
Proof.
  split; [apply length_replaceSpaces|]. split.
  - split.
    + intros E. rewrite <- E. apply replaceSpaces_no_space.
    + apply replaceSpaces_fixed.
  - apply replaceSpaces_fixed, replaceSpaces_no_space.
Qed.

(** ** Registry traffic and the findings of an ingestion *)

Section IngestionTraffic.

Context {World : Type}.
Variable packageJson : Registry World.

Lemma requests_toPackageData e n :
  requests (snd (toPackageData packageJson e n)) =
  (requests n ++
   match licenseConcluded e with
   | Some _ => []
   | None => [requestOf e]
   end)%list.
Proof.
  destruct (toPackageData_fields packageJson e n) as (_ & _ & _ & ->).
  destruct (licenseConcluded e) as [l|] eqn:E.
  - rewrite (concludeLicense_declared packageJson e l n E). simpl.
    now rewrite app_nil_r.
  - now rewrite (concludeLicense_fallback packageJson e n E).
Qed.

Lemma promiseAllMap_Forall_in {A B : Type} (f : A -> IO World B)
  (P : B -> Prop) xs :
  (forall x, In x xs -> forall n, P (fst (f x n))) ->
  forall n, Forall P (fst (promiseAllMap f xs n)).
Proof.
  induction xs as [|x xs IH]; intros Hf n.
  - constructor.
  - rewrite promiseAllMap_cons. simpl. constructor.
    + apply Hf. now left.
    + apply IH. intros y Hy. apply Hf. now right.
Qed.

(** X3. Ingesting a package list asks the registry once for each kept
    entry that has no declared license, in the order of the list and with
    the entry's name and version, and for no other entry. *)
Theorem ingestPackages_requests (pkgs : list SbomPackage) (n : Net World) :
  requests (snd (ingestPackages packageJson pkgs n)) =
  (requests n ++ map requestOf (filter needsRegistry pkgs))%list.
Proof.
  unfold ingestPackages. revert n.
  induction pkgs as [|e es IH]; intros n.
  - simpl. now rewrite app_nil_r.
  - cbn [filter].
    assert (Hn : needsRegistry e =
                 keepPackage e && match licenseConcluded e with
                                  | Some _ => false
                                  | None => true
                                  end) by reflexivity.
    rewrite Hn. destruct (keepPackage e) eqn:Hk; cbn [andb].
    + rewrite promiseAllMap_cons. cbn [snd].
      rewrite IH, requests_toPackageData, <- app_assoc.
      now destruct (licenseConcluded e).
    + apply IH.
Qed.

(** X4. No finding of an ingestion has an empty name or the version
    "main". *)
Theorem ingestPackages_findings_named (pkgs : list SbomPackage) (n : Net World) :
  Forall (fun p => name p <> EmptyString /\ version p <> "main")
         (fst (ingestPackages packageJson pkgs n)).
Proof.
  unfold ingestPackages. apply promiseAllMap_Forall_in.
  intros e He m. apply filter_In in He as [_ Hk].
  destruct (toPackageData_fields packageJson e m) as (-> & -> & _ & _).
  unfold keepPackage, Js.truthy in Hk.
  apply andb_prop in Hk as [Hn Hv]. split.
  - destruct (sbom_name e) as [nm|]; [|discriminate]. simpl.
    intros ->. discriminate.
  - destruct (versionInfo e) as [v|]; [|discriminate].
    intros ->. discriminate.
Qed.

Lemma promiseAllMap_Forall2 {A B : Type} (f : A -> IO World B)
  (R : A -> B -> Prop) :
  (forall x n, R x (fst (f x n))) ->
  forall xs n, Forall2 R xs (fst (promiseAllMap f xs n)).
Proof.
  intros Hf. induction xs as [|x xs IH]; intros n.
  - constructor.
  - rewrite promiseAllMap_cons. simpl. constructor; auto.
Qed.

Lemma allReturned_Forall2 {A : Type} (os : list (Outcome A)) : forall l,
  allReturned os = Returned l -> Forall2 (fun o a => o = Returned a) os l.
Proof.
  induction os as [|[e|a] os IH]; simpl; intros l Hl.
  - injection Hl as <-. constructor.
  - discriminate.
  - destruct (allReturned os) as [e|l']; [discriminate|].
    injection Hl as <-. constructor; auto.
Qed.

Lemma Forall2_compose {A B C : Type} (R : A -> B -> Prop) (S : B -> C -> Prop)
  (T : A -> C -> Prop) :
  (forall a b c, R a b -> S b c -> T a c) ->
  forall la lb lc, Forall2 R la lb -> Forall2 S lb lc -> Forall2 T la lc.
Proof.
  intros H la lb lc HR. revert lc.
  induction HR; intros lc HS; inversion HS; subst; constructor; eauto.
Qed.

(** X5. When the ingestion of the repositories returns, its results are
    those of the repositories one by one and in their order: each carries
    the name of its repository and the findings of that repository's
    SBOM. *)
Theorem ingestRepos_in_order
  (repos : list OrgRepo) (n n' : Net World) (pkgsByRepo : list RepoPackages) :
  ingestRepos packageJson repos n = (Returned pkgsByRepo, n') ->
  Forall2
    (fun r rp =>
       rp_repo rp = repo_name r /\
       exists pkgs m,
         sbomPackages r = Some pkgs /\
         packages rp = fst (ingestPackages packageJson pkgs m))
    repos pkgsByRepo.
Proof.
  unfold ingestRepos, bind, ret. intros H.
  pose proof (promiseAllMap_Forall2 (ingestRepo packageJson)
                (fun r o => forall rp, o = Returned rp ->
                   rp_repo rp = repo_name r /\
                   exists pkgs m,
                     sbomPackages r = Some pkgs /\
                     packages rp = fst (ingestPackages packageJson pkgs m)))
    as HF.
  specialize (HF ltac:(
    intros r m rp; unfold ingestRepo;
    destruct (sbomPackages r) as [pkgs|]; [|discriminate];
    unfold bind, ret;
    destruct (ingestPackages packageJson pkgs m) as [ps m1] eqn:E; simpl;
    intros [= <-]; simpl; split; auto;
    exists pkgs, m; now rewrite E) repos n).
  destruct (promiseAllMap (ingestRepo packageJson) repos n) as [os n1].
  simpl in HF. injection H as H _.
  apply allReturned_Forall2 in H.
  eapply Forall2_compose; [|exact HF|exact H].
  intros r o rp Hr ->. now apply Hr.
Qed.

End IngestionTraffic.

Lemma ingestRepos_in_order_witness :
  ingestRepos Samples.offline
    [mkOrgRepo "C" (Some [Samples.rootEntry; Samples.barGPL])] Samples.net0
  = (Returned [Samples.repoC], Samples.net0) /\
  Forall2
    (fun r rp =>
       rp_repo rp = repo_name r /\
       exists pkgs m,
         sbomPackages r = Some pkgs /\
         packages rp = fst (ingestPackages Samples.offline pkgs m))
    [mkOrgRepo "C" (Some [Samples.rootEntry; Samples.barGPL])] [Samples.repoC].
Proof.
  assert (H : ingestRepos Samples.offline
                [mkOrgRepo "C" (Some [Samples.rootEntry; Samples.barGPL])]
                Samples.net0
              = (Returned [Samples.repoC], Samples.net0)) by reflexivity.
  split; [exact H|].
  apply (ingestRepos_in_order Samples.offline _ _ _ _ H).
Defined.

(** ** When [run] throws *)

Section RunErrors.

Context {World : Type}.
Variable packageJson : Registry World.

Lemma run_error_eq env gh n :
  errorOf (fst (run packageJson env gh n)) = runError env gh.
Proof.
  unfold run, runError, credentialsSet, scanned, Js.truthy.
  destruct (GH_APP_ID env) as [a|]; simpl; [|reflexivity].
  destruct (a =? EmptyString); simpl; [reflexivity|].
  destruct (GH_APP_PRIVATE_KEY env) as [k|]; simpl; [|reflexivity].
  destruct (k =? EmptyString); simpl; [reflexivity|].
  destruct (GH_ORG_INSTALLATION_ID env) as [i|]; simpl; [|reflexivity].
  destruct (i =? EmptyString); simpl; [reflexivity|].
  destruct (LICENSE_BLACKLIST env) as [lb|]; simpl; [|reflexivity].
  destruct (lb =? EmptyString); simpl; [reflexivity|].
  destruct (GH_ORG_URL env) as [url|]; simpl; [|reflexivity].
  destruct (url =? EmptyString); simpl; [reflexivity|].
  destruct (appData gh); simpl; [|reflexivity].
  destruct (orgRepos gh) as [repos|]; [|reflexivity].
  unfold bind.
  pose proof (ingestRepos_error packageJson
                (filter (fun r => negb (repo_name r =? ".github")) repos) n) as H.
  destruct (ingestRepos packageJson _ n) as [[e|l] n1]; simpl in *; exact H.
Qed.

Lemma run_early_net env gh n :
  credentialsSet env = false \/ Js.truthy (LICENSE_BLACKLIST env) = false \/
  Js.truthy (GH_ORG_URL env) = false \/ appData gh = false \/
  orgRepos gh = None ->
  snd (run packageJson env gh n) = n.
Proof.
  unfold run, credentialsSet, Js.truthy.
  destruct (GH_APP_ID env) as [a|]; simpl; [|reflexivity].
  destruct (a =? EmptyString); simpl; [reflexivity|].
  destruct (GH_APP_PRIVATE_KEY env) as [k|]; simpl; [|reflexivity].
  destruct (k =? EmptyString); simpl; [reflexivity|].
  destruct (GH_ORG_INSTALLATION_ID env) as [i|]; simpl; [|reflexivity].
  destruct (i =? EmptyString); simpl; [reflexivity|].
  destruct (LICENSE_BLACKLIST env) as [lb|]; simpl; [|reflexivity].
  destruct (lb =? EmptyString); simpl; [reflexivity|].
  destruct (GH_ORG_URL env) as [url|]; simpl; [|reflexivity].
  destruct (url =? EmptyString); simpl; [reflexivity|].
  destruct (appData gh); simpl; [|reflexivity].
  destruct (orgRepos gh) as [repos|]; [|reflexivity].
  intros [H|[H|[H|[H|H]]]]; discriminate.
Qed.


(** X7. With the configuration set, authentication passed and the listing
    answered, one repository other than [.github] whose SBOM request
    rejects makes the whole run throw the repositories error, whatever the
    other repositories hold. *)
Theorem one_failed_sbom_aborts_run
  (env : Env) (gh : GitHub) (n : Net World)
  (repos : list OrgRepo) (r : OrgRepo) :
  credentialsSet env = true ->
  Js.truthy (LICENSE_BLACKLIST env) = true ->
  Js.truthy (GH_ORG_URL env) = true ->
  appData gh = true ->
  orgRepos gh = Some repos ->
  In r repos -> repo_name r <> ".github" -> sbomPackages r = None ->
  fst (run packageJson env gh n) = Threw ReposUnavailable.
Proof.
  intros Hc Hb Hu Ha Hl Hr Hn Hs.
  pose proof (run_error_eq env gh n) as HE.
  unfold runError in HE. rewrite Hc, Hb, Hu, Ha, Hl in HE. simpl in HE.
  assert (F : forallb sbomAvailable (scanned repos) = false).
  { apply not_true_is_false. intros F. rewrite forallb_forall in F.
    assert (Hin : In r (scanned repos)).
    { apply filter_In. split; auto. apply negb_true_iff.
      now apply String.eqb_neq. }
    specialize (F r Hin). unfold sbomAvailable in F. rewrite Hs in F.
    discriminate. }
  rewrite F in HE.
  destruct (fst (run packageJson env gh n)); simpl in HE; congruence.
Qed.

(** X8. When a credential, the blacklist or the organisation URL is
    missing or empty, or authentication or the repository listing fails,
    [run] throws without a single registry request: the network is as it
    was. *)
Theorem early_failure_makes_no_request (env : Env) (gh : GitHub) (n : Net World) :
  credentialsSet env = false \/ Js.truthy (LICENSE_BLACKLIST env) = false \/
  Js.truthy (GH_ORG_URL env) = false \/ appData gh = false \/
  orgRepos gh = None ->
  snd (run packageJson env gh n) = n /\
  exists e, fst (run packageJson env gh n) = Threw e.
Proof.
  intros H. split; [now apply run_early_net|].
  pose proof (run_error_eq env gh n) as HE.
  assert (HN : runError env gh <> None).
  { unfold runError.
    destruct (credentialsSet env); simpl; [|discriminate].
    destruct (Js.truthy (LICENSE_BLACKLIST env)); simpl; [|discriminate].
    destruct (Js.truthy (GH_ORG_URL env)); simpl; [|discriminate].
    destruct (appData gh); simpl; [|discriminate].
    destruct (orgRepos gh); [|discriminate].
    destruct H as [H|[H|[H|[H|H]]]]; discriminate. }
  destruct (fst (run packageJson env gh n)) as [e|rep]; eauto.
  simpl in HE. congruence.
Qed.

(** X9. The repositories named [.github] play no part in a run: removing
    them from the listing changes neither its outcome nor its registry
    requests. *)
Theorem github_repo_is_ignored
  (env : Env) (authenticated : bool) (repos : list OrgRepo) (n : Net World) :
  run packageJson env (mkGitHub authenticated (Some repos)) n =
  run packageJson env (mkGitHub authenticated (Some (scanned repos))) n.
Proof.
  unfold run, scanned. cbn [orgRepos appData].
  assert (E : forall (f : OrgRepo -> bool) l, filter f (filter f l) = filter f l).
  { intros f l. induction l as [|x l IH]; simpl; auto.
    destruct (f x) eqn:Hx; simpl; rewrite ?Hx, IH; reflexivity. }
  now rewrite E.
Qed.

End RunErrors.

Lemma one_failed_sbom_aborts_run_witness :
  credentialsSet Samples.env = true /\
  In MoreSamples.failedD MoreSamples.oneFailure /\
  sbomPackages MoreSamples.failedD = None /\
  fst (run Samples.allMIT Samples.env
         (mkGitHub true (Some MoreSamples.oneFailure)) Samples.net0)
  = Threw ReposUnavailable.
Proof.
  split; [reflexivity|]. split; [simpl; auto|]. split; [reflexivity|].
  apply (one_failed_sbom_aborts_run Samples.allMIT Samples.env
           (mkGitHub true (Some MoreSamples.oneFailure)) Samples.net0
           MoreSamples.oneFailure MoreSamples.failedD).
  - reflexivity.
  - reflexivity.
  - reflexivity.
  - reflexivity.
  - reflexivity.
  - simpl. auto.
  - discriminate.
  - reflexivity.
Defined.

Lemma early_failure_makes_no_request_witness :
  Js.truthy (LICENSE_BLACKLIST MoreSamples.noBlacklist) = false /\
  snd (run Samples.allMIT MoreSamples.noBlacklist Samples.twoLicenses Samples.net0)
    = Samples.net0 /\
  exists e,
    fst (run Samples.allMIT MoreSamples.noBlacklist Samples.twoLicenses
           Samples.net0) = Threw e.
Proof.
  split; [reflexivity|].
  apply (early_failure_makes_no_request Samples.allMIT MoreSamples.noBlacklist
           Samples.twoLicenses Samples.net0).
  right. left. reflexivity.
Defined.

(** ** More on insertion *)

Lemma set_not_empty {V : Type} k (v : V) (m : JsMap.t V) : JsMap.set k v m <> [].
Proof.
  destruct m as [|[k' v'] m]; simpl; [discriminate|].
  destruct (k =? k'); discriminate.
Qed.

Lemma keys_innerMap n (m : PackageDataMap) :
  JsMap.keys (innerMap n m) = licensesOf n m.
Proof. unfold innerMap, licensesOf. now destruct (JsMap.get n m). Qed.

Lemma get_innerMap n l (m : PackageDataMap) :
  JsMap.get l (innerMap n m) = get2 n l m.
Proof. unfold innerMap, get2. now destruct (JsMap.get n m). Qed.

(** X10. An insertion writes under one [(name, license)] key only and
    keeps the order of the keys: every other key holds what it held, a
    package name already present keeps its place and a new one goes last,
    and likewise for the license under its package name. *)
Theorem insertion_touches_one_key
  (r : string) (pkg : PackageData) (m : PackageDataMap) :
  (forall n l,
     n <> name pkg \/ l <> license pkg ->
     get2 n l (insertPkgIntoMap r pkg m) = get2 n l m) /\
  JsMap.keys (insertPkgIntoMap r pkg m) =
    (if JsMap.has (name pkg) m then JsMap.keys m
     else (JsMap.keys m ++ [name pkg])%list) /\
  (forall n,
     licensesOf n (insertPkgIntoMap r pkg m) =
     if n =? name pkg
     then if JsMap.has (license pkg) (innerMap n m) then licensesOf n m
          else (licensesOf n m ++ [license pkg])%list
     else licensesOf n m).
Proof.
  split; [intros n l H; now apply get2_insert_other|]. split.
  - rewrite insertPkgIntoMap_set. apply JsMapFacts.keys_set.
  - intros n. rewrite insertPkgIntoMap_set. unfold licensesOf at 1.
    destruct (String.eqb_spec n (name pkg)) as [->|Hn].
    + rewrite JsMapFacts.get_set_eq, JsMapFacts.keys_set, keys_innerMap.
      reflexivity.
    + rewrite JsMapFacts.get_set_ne by congruence. reflexivity.
Qed.

Lemma insertion_touches_one_key_witness :
  ("bar" <> "bar" \/ "MIT" <> "GPL-3.0") /\
  get2 "bar" "MIT"
    (insertPkgIntoMap "D" (mkPackageData "bar" "3.0.0" "GPL-3.0")
       [("bar", [("MIT", [mkMapped "C" "1.0.0"])])])
  = Some [mkMapped "C" "1.0.0"].
Proof.
  assert (H : "bar" <> "bar" \/ "MIT" <> "GPL-3.0") by (right; discriminate).
  split; [exact H|].
  destruct (insertion_touches_one_key "D" (mkPackageData "bar" "3.0.0" "GPL-3.0")
              [("bar", [("MIT", [mkMapped "C" "1.0.0"])])]) as [K _].
  apply (K "bar" "MIT" H).
Defined.

Lemma noEmptyRows_insert r pkg (m : PackageDataMap) :
  noEmptyRows m -> noEmptyRows (insertPkgIntoMap r pkg m).
Proof.
  unfold noEmptyRows. intros H. rewrite insertPkgIntoMap_set.
  apply JsMapFacts.Forall_set; auto. simpl. split.
  - apply set_not_empty.
  - apply JsMapFacts.Forall_set.
    + unfold innerMap.
      destruct (JsMap.get (name pkg) m) as [inner|] eqn:Hn; [|constructor].
      apply JsMapFacts.get_In in Hn. rewrite Forall_forall in H.
      apply (H _ Hn).
    + simpl. now destruct (occurrences (name pkg) (license pkg) m).
Qed.

Lemma noEmptyRows_insertSelected sel fs : forall m,
  noEmptyRows m -> noEmptyRows (insertSelected sel m fs).
Proof.
  induction fs as [|[r p] fs IH]; intros m Hm; auto.
  rewrite insertSelected_cons. apply IH. simpl.
  destruct (sel p); auto using noEmptyRows_insert.
Qed.

(** X11. In both maps of an aggregation every package name has at least
    one license under it and every license at least one occurrence: no row
    of the report is without a repository. *)
Theorem aggregate_has_no_empty_rows
  (blacklist : list string) (rs : list RepoPackages) :
  noEmptyRows (fst (aggregate blacklist rs)) /\
  noEmptyRows (snd (aggregate blacklist rs)).
Proof.
  rewrite aggregate_shares. simpl.
  split; apply noEmptyRows_insertSelected; constructor.
Qed.

(** ** Counting the occurrences *)

Lemma list_sum_set {V : Type} (w : V -> nat) k v (m : JsMap.t V) :
  list_sum (map (fun kv => w (snd kv)) (JsMap.set k v m))
  + match JsMap.get k m with Some v0 => w v0 | None => 0 end
  = list_sum (map (fun kv => w (snd kv)) m) + w v.
Proof.
  induction m as [|[k0 v0] m IH]; simpl.
  - lia.
  - destruct (k =? k0); simpl; lia.
Qed.

Lemma totalOccurrences_insert r pkg (m : PackageDataMap) :
  totalOccurrences (insertPkgIntoMap r pkg m) = S (totalOccurrences m).
Proof.
  rewrite insertPkgIntoMap_set. unfold totalOccurrences.
  pose proof (list_sum_set innerTotal (name pkg)
                (JsMap.set (license pkg)
                   (occurrences (name pkg) (license pkg) m
                    ++ [toMapped (r, pkg)])%list
                   (innerMap (name pkg) m)) m) as Ho.
  pose proof (list_sum_set (@length MappedPackageData) (license pkg)
                (occurrences (name pkg) (license pkg) m
                 ++ [toMapped (r, pkg)])%list
                (innerMap (name pkg) m)) as Hi.
  rewrite get_innerMap in Hi. fold (innerTotal (innerMap (name pkg) m)) in Hi.
  unfold innerTotal at 1 in Ho.
  assert (E1 : match get2 (name pkg) (license pkg) m with
               | Some v0 => length v0
               | None => 0
               end = length (occurrences (name pkg) (license pkg) m)).
  { unfold occurrences. now destruct (get2 _ _ m). }
  assert (E2 : match JsMap.get (name pkg) m with
               | Some v0 => innerTotal v0
               | None => 0
               end = innerTotal (innerMap (name pkg) m)).
  { unfold innerMap. now destruct (JsMap.get _ m). }
  rewrite E1 in Hi. rewrite E2 in Ho. rewrite length_app in Hi. simpl in Hi.
  unfold innerTotal in *. lia.
Qed.

Lemma totalOccurrences_insertSelected sel fs : forall m,
  totalOccurrences (insertSelected sel m fs) =
  totalOccurrences m + length (filter (fun f => sel (snd f)) fs).
Proof.
  induction fs as [|[r p] fs IH]; intros m.
  - simpl. lia.
  - rewrite insertSelected_cons, IH. simpl. destruct (sel p); simpl.
    + rewrite totalOccurrences_insert. lia.
    + reflexivity.
Qed.

(** X12. Aggregation neither loses nor repeats a finding: the blacklist
    map stores as many occurrences as there are findings with a
    blacklisted license, and the unknown map as many as there are findings
    with license "Unknown". *)
Theorem aggregate_counts_findings
  (blacklist : list string) (rs : list RepoPackages) :
  totalOccurrences (fst (aggregate blacklist rs)) =
    length (filter (fun f => isBlacklisted blacklist (snd f)) (findings rs)) /\
  totalOccurrences (snd (aggregate blacklist rs)) =
    length (filter (fun f => isUnknown (snd f)) (findings rs)).
Proof.
  rewrite aggregate_shares. simpl.
  split; now rewrite totalOccurrences_insertSelected.
Qed.

(** ** Aggregation over more repositories, and the role of the blacklist *)

Lemma findings_app rs rs' :
  findings (rs ++ rs') = (findings rs ++ findings rs')%list.
Proof. unfold findings. apply flat_map_app. Qed.

Lemma keys_insertSelected_extend sel fs : forall m,
  exists extra,
    JsMap.keys (insertSelected sel m fs) = (JsMap.keys m ++ extra)%list.
Proof.
  induction fs as [|[r p] fs IH]; intros m.
  - exists []. simpl. now rewrite app_nil_r.
  - rewrite insertSelected_cons. simpl. destruct (sel p); [|apply IH].
    destruct (IH (insertPkgIntoMap r p m)) as [extra E]. rewrite E.
    rewrite insertPkgIntoMap_set, JsMapFacts.keys_set.
    destruct (JsMap.has (name p) m).
    + now exists extra.
    + exists (name p :: extra). now rewrite <- app_assoc.
Qed.

(** X13. Aggregating the results of more repositories after those of
    [rs] only adds to what [rs] gave: under every [(name, license)] the
    occurrences are those of [rs] followed by those of the further
    repositories, and the package names of [rs] keep their places at the
    head of the keys. *)
Theorem aggregate_of_more_repositories
  (blacklist : list string) (rs rs' : list RepoPackages) :
  (forall n l,
     occurrences n l (fst (aggregate blacklist (rs ++ rs'))) =
     (occurrences n l (fst (aggregate blacklist rs))
      ++ occurrences n l (fst (aggregate blacklist rs')))%list) /\
  (forall n l,
     occurrences n l (snd (aggregate blacklist (rs ++ rs'))) =
     (occurrences n l (snd (aggregate blacklist rs))
      ++ occurrences n l (snd (aggregate blacklist rs')))%list) /\
  (exists extra,
     JsMap.keys (fst (aggregate blacklist (rs ++ rs'))) =
     (JsMap.keys (fst (aggregate blacklist rs)) ++ extra)%list) /\
  (exists extra,
     JsMap.keys (snd (aggregate blacklist (rs ++ rs'))) =
     (JsMap.keys (snd (aggregate blacklist rs)) ++ extra)%list).
Proof.
  rewrite !aggregate_shares, findings_app. simpl fst. simpl snd.
  split; [|split; [|split]].
  - intros n l. rewrite !occurrences_insertSelected. simpl.
    now rewrite filter_app, map_app.
  - intros n l. rewrite !occurrences_insertSelected. simpl.
    now rewrite filter_app, map_app.
  - rewrite insertSelected_app. apply keys_insertSelected_extend.
  - rewrite insertSelected_app. apply keys_insertSelected_extend.
Qed.

Lemma insertSelected_ext sel sel' fs :
  (forall p, sel p = sel' p) ->
  forall m, insertSelected sel m fs = insertSelected sel' m fs.
Proof.
  intros H. induction fs as [|[r p] fs IH]; intros m; auto.
  rewrite !insertSelected_cons. simpl. now rewrite H, IH.
Qed.

(** X14. The unknown map does not depend on the blacklist, and the
    blacklist map depends on it only through which licenses it contains:
    two blacklists with the same entries, in any order and with any
    repetition, give the same blacklist map. *)
Theorem blacklist_counts_by_membership
  (blacklist blacklist' : list string) (rs : list RepoPackages) :
  snd (aggregate blacklist rs) = snd (aggregate blacklist' rs) /\
  ((forall l, In l blacklist <-> In l blacklist') ->
   fst (aggregate blacklist rs) = fst (aggregate blacklist' rs)).
Proof.
  rewrite !aggregate_shares. simpl. split; [reflexivity|].
  intros H. apply insertSelected_ext. intros p. unfold isBlacklisted.
  destruct (Js.includes blacklist (license p)) eqn:E.
  - symmetry. apply includes_In, H, includes_In, E.
  - symmetry. apply not_true_is_false. intros E'.
    apply includes_In, H, includes_In in E'. congruence.
Qed.

Lemma blacklist_counts_by_membership_witness :
  (forall l, In l ["GPL-3.0"; "AGPL-3.0"]
             <-> In l ["AGPL-3.0"; "GPL-3.0"; "GPL-3.0"]) /\
  fst (aggregate ["GPL-3.0"; "AGPL-3.0"] [Samples.repoC; Samples.repoD]) =
  fst (aggregate ["AGPL-3.0"; "GPL-3.0"; "GPL-3.0"] [Samples.repoC; Samples.repoD]).
Proof.
  assert (H : forall l, In l ["GPL-3.0"; "AGPL-3.0"]
                        <-> In l ["AGPL-3.0"; "GPL-3.0"; "GPL-3.0"])
    by (intros l; simpl; tauto).
  split; [exact H|].
  destruct (blacklist_counts_by_membership ["GPL-3.0"; "AGPL-3.0"]
              ["AGPL-3.0"; "GPL-3.0"; "GPL-3.0"]
              [Samples.repoC; Samples.repoD]) as [_ K].
  apply (K H).
Defined.

Lemma single_value_list {A : Type} (a : A) (l : list A) :
  NoDup l -> l <> [] -> (forall x, In x l -> x = a) -> l = [a].
Proof.
  intros Hnd Hne Hall. destruct l as [|x [|y l]]; [congruence| |].
  - now rewrite (Hall x (or_introl eq_refl)).
  - exfalso. inversion Hnd as [|? ? Hx _]; subst. apply Hx.
    rewrite (Hall x), (Hall y); simpl; auto.
Qed.

(** X15. Every license key of the blacklist map is an entry of the
    blacklist, and the only license key of the unknown map is "Unknown":
    each package name of the unknown map has that one license under it. *)
Theorem license_keys_of_the_maps
  (blacklist : list string) (rs : list RepoPackages) :
  (forall l, In l (licenseKeys (fst (aggregate blacklist rs))) ->
             In l blacklist) /\
  (forall l, In l (licenseKeys (snd (aggregate blacklist rs))) ->
             l = "Unknown") /\
  (forall n, In n (JsMap.keys (snd (aggregate blacklist rs))) ->
             licensesOf n (snd (aggregate blacklist rs)) = ["Unknown"]).
Proof.
  rewrite aggregate_shares. simpl fst. simpl snd. split; [|split].
  - intros l Hl. apply licenseKeys_shares in Hl as (f & _ & Hs & <-).
    now apply includes_In.
  - intros l Hl. apply licenseKeys_shares in Hl as (f & _ & Hs & <-).
    now apply String.eqb_eq.
  - intros n Hn. apply single_value_list.
    + apply NoDup_licensesOf, uniqueKeys_insertSelected, uniqueKeys_empty.
    + apply in_keys_insertSelected in Hn as [[]|(f & Hf & Hs & Hname)].
      intros E.
      assert (Hin : In (license (snd f))
                       (licensesOf n (insertSelected isUnknown JsMap.empty
                                        (findings rs)))).
      { apply licensesOf_insertSelected. right. exists f. split; auto.
        unfold storedUnder. now rewrite Hs, Hname, !String.eqb_refl. }
      rewrite E in Hin. destruct Hin.
    + intros l Hl. apply licensesOf_insertSelected in Hl as [[]|(f & _ & Hs)].
      unfold storedUnder in Hs.
      apply andb_prop in Hs as [Hs Hl]. apply andb_prop in Hs as [Hs _].
      apply String.eqb_eq in Hl, Hs. congruence.
Qed.

Lemma license_keys_of_the_maps_witness :
  In "foo-lib" (JsMap.keys (snd (aggregate ["GPL-3.0"] [MoreSamples.repoU]))) /\
  licensesOf "foo-lib" (snd (aggregate ["GPL-3.0"] [MoreSamples.repoU]))
  = ["Unknown"].
Proof.
  assert (H : In "foo-lib"
                 (JsMap.keys (snd (aggregate ["GPL-3.0"] [MoreSamples.repoU]))))
    by (simpl; auto).
  split; [exact H|].
  destruct (license_keys_of_the_maps ["GPL-3.0"] [MoreSamples.repoU])
    as (_ & _ & K).
  apply (K "foo-lib" H).
Defined.

(** X16. The two tests of the aggregation loop are independent: when
    "Unknown" is itself a blacklist entry, every unresolved finding is
    stored in both maps, which then hold the same occurrences under
    "Unknown" for every package name. *)
Theorem blacklisted_Unknown_fills_both_maps
  (blacklist : list string) (rs : list RepoPackages) :
  In "Unknown" blacklist ->
  forall n,
    occurrences n "Unknown" (fst (aggregate blacklist rs)) =
    occurrences n "Unknown" (snd (aggregate blacklist rs)).
Proof.
  intros Hb n. rewrite occurrences_blacklistMap, occurrences_noLicenseMap.
  f_equal. apply filter_ext. intros [r p]. unfold storedUnder. simpl.
  destruct (String.eqb_spec (license p) "Unknown") as [E|E].
  - unfold isBlacklisted, isUnknown. rewrite E.
    apply includes_In in Hb. now rewrite Hb.
  - now rewrite !andb_false_r.
Qed.

Lemma blacklisted_Unknown_fills_both_maps_witness :
  In "Unknown" ["GPL-3.0"; "Unknown"] /\
  forall n,
    occurrences n "Unknown"
      (fst (aggregate ["GPL-3.0"; "Unknown"] [MoreSamples.repoU])) =
    occurrences n "Unknown"
      (snd (aggregate ["GPL-3.0"; "Unknown"] [MoreSamples.repoU])).
Proof.
  assert (H : In "Unknown" ["GPL-3.0"; "Unknown"]) by (simpl; auto).
  split; [exact H|].
  apply (blacklisted_Unknown_fills_both_maps ["GPL-3.0"; "Unknown"]
           [MoreSamples.repoU] H).
Defined.

(** ** The Slack text and the arrays behind both renderings *)



(** X18. Turning a map into arrays loses nothing and keeps the order: the
    names and licenses of the arrays, paired with what they hold, are the
    entries of the map. *)
Theorem arraifyMap_keeps_entries (m : PackageDataMap) :
  map (fun e => (pe_name e,
                 map (fun le => (le_license le, le_repos le)) (pe_licenses e)))
      (arraifyMap m) = m /\
  map pe_name (arraifyMap m) = JsMap.keys m.
Proof.
  assert (Hinner : forall inner : JsMap.t (list MappedPackageData),
             map (fun le => (le_license le, le_repos le))
                 (map (fun kv' => {| le_license := fst kv'; le_repos := snd kv' |})
                      inner) = inner).
  { induction inner as [|[l arr] inner IH]; simpl; [reflexivity|].
    now rewrite IH. }
  unfold arraifyMap, JsMap.keys. split.
  - induction m as [|[k inner] m IH]; simpl; [reflexivity|].
    now rewrite IH, Hinner.
  - now rewrite map_map.
Qed.

(** ** The lines of the Markdown table *)







(** ** The run as the composition of its stages *)

(** X20. A license that comes from the registry is normalized like a
    declared one: for an entry with no declared license whose request is
    fulfilled with a license, the finding's license is the registry's with
    every space replaced by a hyphen. *)
Theorem fallback_license_is_normalized
  {World : Type} (packageJson : Registry World)
  (pkg : SbomPackage) (n : Net World) (registryLicense : string) :
  licenseConcluded pkg = None ->
  fst (packageJson (asString (sbom_name pkg)) (versionInfo pkg) (world n))
    = Fulfilled (Some registryLicense) ->
  license (fst (toPackageData packageJson pkg n))
    = Js.replaceSpaces registryLicense.
Proof.
  intros Hnone Hreply.
  destruct (toPackageData_fields packageJson pkg n) as (_ & _ & -> & _).
  rewrite (concludeLicense_fallback packageJson pkg n Hnone). simpl.
  now rewrite Hreply.
Qed.

Lemma fallback_license_is_normalized_witness :
  licenseConcluded Samples.fooLib = None /\
  fst (Samples.allMIT "foo-lib" (Some "2.1.0") tt) = Fulfilled (Some "MIT") /\
  license (fst (toPackageData Samples.allMIT Samples.fooLib Samples.net0))
    = Js.replaceSpaces "MIT".
Proof.
  split; [reflexivity|]. split; [reflexivity|].
  apply (fallback_license_is_normalized Samples.allMIT Samples.fooLib
           Samples.net0 "MIT"); reflexivity.
Defined.



